(** * UnrealImGui: the module facade (Source/ImGui/Private/ImGuiModule.cpp)

    A shallow embedding of [FImGuiModule] and of the partial implementation of
    [FImGuiTextureHandle] that lives in the same translation unit.  The file
    statics ([ImGuiModuleManager], [ImGuiEditor]) and the two console variables
    become the fields of an explicit [ModuleState]; every facade function is a
    state transformer, and a function that can hit a failed [checkf] or
    dereference the null manager returns a [Result].

    The managers behind the facade ([FTextureManager], [FImGuiContextManager]),
    the texture handle's header and the engine's multicast delegate are not
    part of the translation unit.  Their definitions below are marked
    "Modelled from the spec" and follow the slot-registry and delegate-dispatch
    sections of the specification. *)

From Stdlib Require Import ZArith NArith Lia.
From stdpp Require Import prelude strings gmap.

(** ** Results of fallible calls *)

(** What a facade call can end in besides a value: a failed [checkf], a
    dereference of the null module manager, and the two error values of the
    specification's taxonomy. *)
Inductive Failure : Type :=
| CheckFailed
| NullDereference
| InvalidSlot
| UnknownContext.

Inductive Result (A : Type) : Type :=
| Ok (a : A)
| Fail (e : Failure).

Arguments Ok {A} a.
Arguments Fail {A} e.

Definition bind {A B : Type} (r : Result A) (k : A -> Result B) : Result B :=
  match r with
  | Ok a => k a
  | Fail e => Fail e
  end.

Notation "'do' x <- r ; k" := (bind r (fun x => k))
  (at level 10, x pattern, r at level 100, k at level 200).

(** [checkf(Cond, ...)]: continues when the condition holds. *)
Definition checkf (cond : bool) : Result unit :=
  if cond then Ok tt else Fail CheckFailed.

(** ** Indices and identifiers *)

(** [TextureIndex] is an [int32]; [INDEX_NONE] is the engine's "no index". *)
Definition TextureIndex : Type := Z.
Definition INDEX_NONE : TextureIndex := (-1)%Z.

(** Modelled from the spec: [ImTextureID] and the two conversions of
    [ImGuiInterops] are declared outside this translation unit.  A texture id
    "encodes [slot_index] and is otherwise opaque". *)
Inductive ImTextureID : Type :=
| MkImTextureID (Index : TextureIndex).

Definition ToImTextureID (Index : TextureIndex) : ImTextureID := MkImTextureID Index.
Definition ToTextureIndex (Id : ImTextureID) : TextureIndex :=
  match Id with MkImTextureID Index => Index end.

(** The key of one entry of a draw event ([FDelegateHandle]). *)
Definition FDelegateHandle : Type := N.

(** [struct EDelegateCategory]. *)
Inductive EDelegateCategory : Type :=
| Default       (* Default per-context draw events. *)
| MultiContext. (* Multi-context draw event defined in context manager. *)

Global Instance EDelegateCategory_eq_dec : EqDecision EDelegateCategory.
Proof. solve_decision. Defined.

(** [FImGuiDelegateHandle]: the entry's key, its category and the index of the
    context it was added to.  The index is read for the [Default] category
    only; a handle built from two initialisers (the multi-context one) has 0
    there. *)
Record FImGuiDelegateHandle : Type := MkDelegateHandle {
  Handle : FDelegateHandle;
  Category : EDelegateCategory;
  Index : Z
}.

Section ImGuiModule.

(** Names, texture resources, draw callbacks and worlds are engine objects; the
    facade only stores them, compares names and passes the rest on. *)
Context {FName : Type} `{EqDecision FName} (NAME_None : FName).
Context {UTexture2D FImGuiDelegate UWorld : Type}.

(** The build configuration, the two constants of Utilities/WorldContextIndex.h
    (included, not defined here) and the index the context manager reports for
    a world through the [Index] out-parameter of [GetWorldContextProxy]. *)
Variable WITH_EDITOR : bool.
Variable STANDALONE_GAME_CONTEXT_INDEX : Z.
Variable EDITOR_CONTEXT_INDEX : Z.
Variable GetWorldContextIndex : UWorld -> Z.

(** ** Texture handles *)

Record FImGuiTextureHandle : Type := MkTextureHandle {
  Name : FName;
  TextureId : ImTextureID
}.

(** Modelled from the spec: [FImGuiTextureHandle{}], the default handle of the
    header, is the "invalid sentinel": the name of no texture and an id that
    encodes [INDEX_NONE]. *)
Definition NullTextureHandle : FImGuiTextureHandle :=
  {| Name := NAME_None; TextureId := ToImTextureID INDEX_NONE |}.

Definition GetTextureId (h : FImGuiTextureHandle) : ImTextureID := TextureId h.

(** ** The texture manager *)

(** Modelled from the spec: [FTextureManager] is not in this translation unit.
    It is the slot registry of the specification: "[slots]: ordered sequence of
    optional (name, payload) pairs, indexed by integer" and "[free_list]: set
    of indices eligible for reuse". *)
Record FTextureManager : Type := MkTextureManager {
  slots : list (option (FName * UTexture2D));
  free_list : list TextureIndex
}.

(** The pair a slot holds: nothing for a free slot and for an index out of
    range. *)
Definition slot_at (tm : FTextureManager) (i : TextureIndex) : option (FName * UTexture2D) :=
  if (0 <=? i)%Z then mjoin (slots tm !! Z.to_nat i) else None.

(** Modelled from the spec: the stored name of a live slot; a free slot and an
    index out of range have none. *)
Definition GetTextureName (tm : FTextureManager) (i : TextureIndex) : option FName :=
  fst <$> slot_at tm i.

(** Modelled from the spec: "[Resolve(index, expected_name)]: returns a
    reference only if the slot is live and its stored name equals
    [expected_name]; otherwise [NotFound]". *)
Definition Resolve (tm : FTextureManager) (i : TextureIndex) (expected : FName)
  : option UTexture2D :=
  match slot_at tm i with
  | Some (n, p) => if decide (n = expected) then Some p else None
  | None => None
  end.

(** The index of the first live slot of [l] stored under [n], counting from
    [i]; [INDEX_NONE] when there is none. *)
Fixpoint find_from (l : list (option (FName * UTexture2D))) (n : FName) (i : TextureIndex)
  : TextureIndex :=
  match l with
  | [] => INDEX_NONE
  | Some (m, _) :: l' => if decide (m = n) then i else find_from l' n (i + 1)%Z
  | None :: l' => find_from l' n (i + 1)%Z
  end.

(** Modelled from the spec: "[Find(name)]: linear or indexed lookup by name
    over live slots; returns an invalid sentinel id if none found". *)
Definition FindTextureIndex (tm : FTextureManager) (n : FName) : TextureIndex :=
  find_from (slots tm) n 0%Z.

(** Modelled from the spec: "[Allocate(name, payload)]: reuses a free index if
    one exists, else appends; stores (name, payload); returns the index". *)
Definition Allocate (tm : FTextureManager) (n : FName) (p : UTexture2D)
  : TextureIndex * FTextureManager :=
  match free_list tm with
  | i :: rest =>
      (i, {| slots := <[Z.to_nat i := Some (n, p)]> (slots tm); free_list := rest |})
  | [] =>
      (Z.of_nat (length (slots tm)),
       {| slots := slots tm ++ [Some (n, p)]; free_list := [] |})
  end.

(** Modelled from the spec: "[Release(index)]: clears the slot's payload, adds
    index to the free list"; "releasing an already-free or out-of-range index
    is a caller error (signals [InvalidSlot])". *)
Definition ReleaseTextureResources (tm : FTextureManager) (i : TextureIndex)
  : Result FTextureManager :=
  match slot_at tm i with
  | Some _ =>
      Ok {| slots := <[Z.to_nat i := None]> (slots tm); free_list := i :: free_list tm |}
  | None => Fail InvalidSlot
  end.

(** Modelled from the spec: "[Register(name, descriptor, make_unique)]: if
    [make_unique] is false and a live slot already has this name" the existing
    id is returned (dedup by name); otherwise a slot is allocated. *)
Definition CreateTextureResources (tm : FTextureManager) (n : FName) (p : UTexture2D)
    (bMakeUnique : bool) : TextureIndex * FTextureManager :=
  let found := FindTextureIndex tm n in
  if negb bMakeUnique && negb (found =? INDEX_NONE)%Z
  then (found, tm)
  else Allocate tm n p.

(** ** Draw events and the context manager *)

(** Modelled from the spec: the draw event of a context (the engine's
    multicast delegate) is "an ordered sequence of (raw_key, callback) pairs";
    [Add] appends under the key it is given and [Remove] drops the entries of
    a key, "a no-op if absent". *)
Definition FImGuiDrawEvent : Type := list (FDelegateHandle * FImGuiDelegate).

Definition Event_Add (ev : FImGuiDrawEvent) (k : FDelegateHandle) (d : FImGuiDelegate)
  : FImGuiDrawEvent :=
  ev ++ [(k, d)].

Definition Event_Remove (ev : FImGuiDrawEvent) (k : FDelegateHandle) : FImGuiDrawEvent :=
  @filter _ (list (FDelegateHandle * FImGuiDelegate)) _ (fun e => e.1 <> k) _ ev.

Record FImGuiContextProxy : Type := MkContextProxy {
  OnDraw : FImGuiDrawEvent
}.

(** Modelled from the spec: [FImGuiContextManager] is not in this translation
    unit.  It owns one proxy per live context index and the single
    multi-context draw event. *)
Record FImGuiContextManager : Type := MkContextManager {
  Contexts : gmap Z FImGuiContextProxy;
  OnDrawMultiContext : FImGuiDrawEvent
}.

(** Modelled from the spec: [GetContextProxy(Index)] is "[GetContext]": the
    proxy of a live context, or [nullptr] ([NotFound]) when the index is not
    live. *)
Definition GetContextProxy (cm : FImGuiContextManager) (i : Z) : option FImGuiContextProxy :=
  Contexts cm !! i.

(** Modelled from the spec: the editor, standalone and world contexts are
    "lazily allocated on first use"; the getter returns a reference, so the
    caller always has a proxy.  The embedding returns the manager in which the
    context exists. *)
Definition GetOrCreateContext (cm : FImGuiContextManager) (i : Z) : FImGuiContextManager :=
  match Contexts cm !! i with
  | Some _ => cm
  | None =>
      {| Contexts := <[i := {| OnDraw := [] |}]> (Contexts cm);
         OnDrawMultiContext := OnDrawMultiContext cm |}
  end.

(** [Proxy.OnDraw().Add(Delegate)] through the reference into the manager. *)
Definition Proxy_OnDraw_Add (cm : FImGuiContextManager) (i : Z) (k : FDelegateHandle)
    (d : FImGuiDelegate) : FImGuiContextManager :=
  match Contexts cm !! i with
  | Some p =>
      {| Contexts := <[i := {| OnDraw := Event_Add (OnDraw p) k d |}]> (Contexts cm);
         OnDrawMultiContext := OnDrawMultiContext cm |}
  | None => cm
  end.

(** [Proxy->OnDraw().Remove(Handle)] through the pointer into the manager. *)
Definition Proxy_OnDraw_Remove (cm : FImGuiContextManager) (i : Z) (k : FDelegateHandle)
  : FImGuiContextManager :=
  match Contexts cm !! i with
  | Some p =>
      {| Contexts := <[i := {| OnDraw := Event_Remove (OnDraw p) k |}]> (Contexts cm);
         OnDrawMultiContext := OnDrawMultiContext cm |}
  | None => cm
  end.

(** ** The module manager and the statics of the translation unit *)

Record FImGuiModuleManager : Type := MkModuleManager {
  ContextManager : FImGuiContextManager;
  TextureManager : FTextureManager
}.

(** Modelled from the spec: a manager as [new FImGuiModuleManager()] leaves
    it.  Contexts are "created on first reference" and texture slots "on
    explicit registration", so it has no context, no callback, no texture. *)
Definition NewModuleManager : FImGuiModuleManager :=
  {| ContextManager := {| Contexts := ∅; OnDrawMultiContext := [] |};
     TextureManager := {| slots := []; free_list := [] |} |}.

(** The statics and the engine state the facade reads and writes:
    [ImGuiModuleManager] and [ImGuiEditor] ([None] is [nullptr]), the console
    variables [CVars::InputEnabled] and [CVars::ShowDemo], the generator of
    delegate keys and the number of handlers added to [OnModulesChanged]. *)
Record ModuleState : Type := MkModuleState {
  ImGuiModuleManager : option FImGuiModuleManager;
  ImGuiEditor : option unit;
  InputEnabled : Z;
  ShowDemo : Z;
  NextDelegateID : FDelegateHandle;
  ModulesChangedHandlers : nat
}.

(** A world context of the engine ([FWorldContext]).  [World()] returns a
    pointer, which may be null. *)
Record FWorldContext : Type := MkWorldContext {
  World : option UWorld
}.

(** The engine globals [AddWorldImGuiDelegate] consults in an editor build:
    whether [GEngine] is set, the world context found for
    [GEngine->GameViewport] and the world context found for the dedicated
    server ([None] is a null [FWorldContext] pointer). *)
Record FEngine : Type := MkEngine {
  GEngine : bool;
  GameViewportWorldContext : option FWorldContext;
  DedicatedServerWorldContext : option FWorldContext
}.

Definition set_manager (st : ModuleState) (m : option FImGuiModuleManager) : ModuleState :=
  {| ImGuiModuleManager := m;
     ImGuiEditor := ImGuiEditor st;
     InputEnabled := InputEnabled st;
     ShowDemo := ShowDemo st;
     NextDelegateID := NextDelegateID st;
     ModulesChangedHandlers := ModulesChangedHandlers st |}.

Definition set_context_manager (m : FImGuiModuleManager) (cm : FImGuiContextManager)
  : FImGuiModuleManager :=
  {| ContextManager := cm; TextureManager := TextureManager m |}.

Definition set_texture_manager (m : FImGuiModuleManager) (tm : FTextureManager)
  : FImGuiModuleManager :=
  {| ContextManager := ContextManager m; TextureManager := tm |}.

(** Modelled from the spec: the key of the next entry added to a draw event.
    Keys are "monotonically increasing per sequence (never reused)".  The
    embedding draws them from one generator for all draw events, which gives
    that and more: a key is never issued twice, also not by another event or
    by a context created later under an index used before. *)
Definition GenerateNewID (st : ModuleState) : FDelegateHandle * ModuleState :=
  (NextDelegateID st,
   {| ImGuiModuleManager := ImGuiModuleManager st;
      ImGuiEditor := ImGuiEditor st;
      InputEnabled := InputEnabled st;
      ShowDemo := ShowDemo st;
      NextDelegateID := N.succ (NextDelegateID st);
      ModulesChangedHandlers := ModulesChangedHandlers st |}).

(** ** Draw delegates *)

(** The common tail of the two per-context adds: the proxy reference obtained
    for context [i] (created on first use), then
    [{ Proxy.OnDraw().Add(Delegate), EDelegateCategory::Default, Index }]. *)
Definition AddToContext (m : FImGuiModuleManager) (i : Z) (d : FImGuiDelegate)
    (st : ModuleState) : FImGuiDelegateHandle * ModuleState :=
  let cm := GetOrCreateContext (ContextManager m) i in
  let (k, st') := GenerateNewID st in
  ({| Handle := k; Category := Default; Index := i |},
   set_manager st' (Some (set_context_manager m (Proxy_OnDraw_Add cm i k d)))).

(** [FImGuiModule::AddEditorImGuiDelegate] (editor builds only). *)
Definition AddEditorImGuiDelegate (d : FImGuiDelegate) (st : ModuleState)
  : Result (FImGuiDelegateHandle * ModuleState) :=
  match ImGuiModuleManager st with
  | None => Fail CheckFailed
  | Some m => Ok (AddToContext m EDITOR_CONTEXT_INDEX d st)
  end.

(** [FImGuiModule::AddWorldImGuiDelegate].  In an editor build the pointer to
    the world context is checked; its [World()] is dereferenced unchecked. *)
Definition AddWorldImGuiDelegate (eng : FEngine) (d : FImGuiDelegate) (st : ModuleState)
  : Result (FImGuiDelegateHandle * ModuleState) :=
  match ImGuiModuleManager st with
  | None => Fail CheckFailed
  | Some m =>
      if WITH_EDITOR then
        do _ <- checkf (GEngine eng);
        let WorldContext :=
          match GameViewportWorldContext eng with
          | Some wc => Some wc
          | None => DedicatedServerWorldContext eng
          end in
        match WorldContext with
        | None => Fail CheckFailed
        | Some wc =>
            match World wc with
            | None => Fail NullDereference
            | Some w => Ok (AddToContext m (GetWorldContextIndex w) d st)
            end
        end
      else
        Ok (AddToContext m STANDALONE_GAME_CONTEXT_INDEX d st)
  end.

(** [FImGuiModule::AddMultiContextImGuiDelegate]. *)
Definition AddMultiContextImGuiDelegate (d : FImGuiDelegate) (st : ModuleState)
  : Result (FImGuiDelegateHandle * ModuleState) :=
  match ImGuiModuleManager st with
  | None => Fail CheckFailed
  | Some m =>
      let cm := ContextManager m in
      let (k, st') := GenerateNewID st in
      Ok ({| Handle := k; Category := MultiContext; Index := 0 |},
          set_manager st'
            (Some (set_context_manager m
               {| Contexts := Contexts cm;
                  OnDrawMultiContext := Event_Add (OnDrawMultiContext cm) k d |})))
  end.

(** [FImGuiModule::RemoveImGuiDelegate]. *)
Definition RemoveImGuiDelegate (h : FImGuiDelegateHandle) (st : ModuleState) : ModuleState :=
  match ImGuiModuleManager st with
  | Some m =>
      let cm := ContextManager m in
      if decide (Category h = MultiContext) then
        set_manager st
          (Some (set_context_manager m
             {| Contexts := Contexts cm;
                OnDrawMultiContext := Event_Remove (OnDrawMultiContext cm) (Handle h) |}))
      else
        match GetContextProxy cm (Index h) with
        | Some _ =>
            set_manager st
              (Some (set_context_manager m (Proxy_OnDraw_Remove cm (Index h) (Handle h))))
        | None => st
        end
  | None => st
  end.

(** ** Textures *)

(** [FImGuiTextureHandle::HasValidEntry]. *)
Definition HasValidEntry (h : FImGuiTextureHandle) (st : ModuleState) : bool :=
  let Index := ToTextureIndex (TextureId h) in
  negb (Index =? INDEX_NONE)%Z
  && match ImGuiModuleManager st with
     | Some m => bool_decide (GetTextureName (TextureManager m) Index = Some (Name h))
     | None => false
     end.

(** Modelled from the spec: [FImGuiTextureHandle::IsValid] is defined in the
    handle's header.  Unregistration "validates via the identity-checked
    resolve", which [HasValidEntry] exposes as a predicate. *)
Definition IsValid (h : FImGuiTextureHandle) (st : ModuleState) : bool :=
  HasValidEntry h st.

(** [FImGuiModule::FindTextureHandle].  The manager pointer is dereferenced
    unchecked. *)
Definition FindTextureHandle (n : FName) (st : ModuleState) : Result FImGuiTextureHandle :=
  match ImGuiModuleManager st with
  | None => Fail NullDereference
  | Some m =>
      let Index := FindTextureIndex (TextureManager m) n in
      Ok (if negb (Index =? INDEX_NONE)%Z
          then {| Name := n; TextureId := ToImTextureID Index |}
          else NullTextureHandle)
  end.

(** [FImGuiModule::RegisterTexture]. *)
Definition RegisterTexture (n : FName) (Texture : UTexture2D) (bMakeUnique : bool)
    (st : ModuleState) : Result (FImGuiTextureHandle * ModuleState) :=
  match ImGuiModuleManager st with
  | None => Fail NullDereference
  | Some m =>
      let (Index, tm) := CreateTextureResources (TextureManager m) n Texture bMakeUnique in
      Ok ({| Name := n; TextureId := ToImTextureID Index |},
          set_manager st (Some (set_texture_manager m tm)))
  end.

(** [FImGuiModule::ReleaseTexture]. *)
Definition ReleaseTexture (h : FImGuiTextureHandle) (st : ModuleState) : Result ModuleState :=
  if IsValid h st then
    match ImGuiModuleManager st with
    | None => Fail NullDereference
    | Some m =>
        do tm <- ReleaseTextureResources (TextureManager m) (ToTextureIndex (GetTextureId h));
        Ok (set_manager st (Some (set_texture_manager m tm)))
    end
  else Ok st.

(** ** Module life cycle *)

(** [FImGuiModule::StartupModule]. *)
Definition StartupModule (st : ModuleState) : Result ModuleState :=
  do _ <- checkf (bool_decide (ImGuiModuleManager st = None));
  let st1 := set_manager st (Some NewModuleManager) in
  if WITH_EDITOR then
    do _ <- checkf (bool_decide (ImGuiEditor st1 = None));
    Ok {| ImGuiModuleManager := ImGuiModuleManager st1;
          ImGuiEditor := Some tt;
          InputEnabled := InputEnabled st1;
          ShowDemo := ShowDemo st1;
          NextDelegateID := NextDelegateID st1;
          ModulesChangedHandlers := ModulesChangedHandlers st1 |}
  else Ok st1.

(** [FImGuiModule::ShutdownModule]. *)
Definition ShutdownModule (st : ModuleState) : Result ModuleState :=
  do st1 <- (if WITH_EDITOR then
               do _ <- checkf (bool_decide (ImGuiEditor st <> None));
               Ok {| ImGuiModuleManager := ImGuiModuleManager st;
                     ImGuiEditor := None;
                     InputEnabled := InputEnabled st;
                     ShowDemo := ShowDemo st;
                     NextDelegateID := NextDelegateID st;
                     ModulesChangedHandlers := ModulesChangedHandlers st |}
             else Ok st);
  do _ <- checkf (bool_decide (ImGuiModuleManager st1 <> None));
  let st2 := set_manager st1 None in
  Ok (if WITH_EDITOR then
        {| ImGuiModuleManager := ImGuiModuleManager st2;
           ImGuiEditor := ImGuiEditor st2;
           InputEnabled := InputEnabled st2;
           ShowDemo := ShowDemo st2;
           NextDelegateID := NextDelegateID st2;
           ModulesChangedHandlers := S (ModulesChangedHandlers st2) |}
      else st2).

(** ** Input mode and demo flags *)

(** Modelled from the spec: the two flags are "simple boolean process-wide
    flags"; [Set(Value, ECVF_SetByConsole)] on the console variable stores the
    value. *)
Definition set_InputEnabled (st : ModuleState) (v : Z) : ModuleState :=
  {| ImGuiModuleManager := ImGuiModuleManager st;
     ImGuiEditor := ImGuiEditor st;
     InputEnabled := v;
     ShowDemo := ShowDemo st;
     NextDelegateID := NextDelegateID st;
     ModulesChangedHandlers := ModulesChangedHandlers st |}.

Definition set_ShowDemo (st : ModuleState) (v : Z) : ModuleState :=
  {| ImGuiModuleManager := ImGuiModuleManager st;
     ImGuiEditor := ImGuiEditor st;
     InputEnabled := InputEnabled st;
     ShowDemo := v;
     NextDelegateID := NextDelegateID st;
     ModulesChangedHandlers := ModulesChangedHandlers st |}.

(** [FImGuiModule::IsInputMode]. *)
Definition IsInputMode (st : ModuleState) : bool := (0 <? InputEnabled st)%Z.

(** [FImGuiModule::SetInputMode]. *)
Definition SetInputMode (bEnabled : bool) (st : ModuleState) : ModuleState :=
  set_InputEnabled st (if bEnabled then 1 else 0)%Z.

(** [FImGuiModule::ToggleInputMode]. *)
Definition ToggleInputMode (st : ModuleState) : ModuleState :=
  SetInputMode (negb (IsInputMode st)) st.

(** [FImGuiModule::IsShowingDemo]. *)
Definition IsShowingDemo (st : ModuleState) : bool := (0 <? ShowDemo st)%Z.

(** [FImGuiModule::SetShowDemo]. *)
Definition SetShowDemo (bShow : bool) (st : ModuleState) : ModuleState :=
  set_ShowDemo st (if bShow then 1 else 0)%Z.

(** [FImGuiModule::ToggleShowDemo]. *)
Definition ToggleShowDemo (st : ModuleState) : ModuleState :=
  SetShowDemo (negb (IsShowingDemo st)) st.

(** * Properties of the facade *)

(** ** Basic facts about the texture registry *)

Lemma slot_at_negative (tm : FTextureManager) (i : TextureIndex) :
  (i < 0)%Z -> slot_at tm i = None.
Proof.
  intros Hi. unfold slot_at.
  destruct (0 <=? i)%Z eqn:E; [apply Z.leb_le in E; lia | reflexivity].
Qed.

Lemma slot_at_INDEX_NONE (tm : FTextureManager) : slot_at tm INDEX_NONE = None.
Proof. apply slot_at_negative. unfold INDEX_NONE. lia. Qed.

Lemma slot_at_Some (tm : FTextureManager) (i : TextureIndex) (e : FName * UTexture2D) :
  slot_at tm i = Some e <-> (0 <= i)%Z /\ slots tm !! Z.to_nat i = Some (Some e).
Proof.
  unfold slot_at. destruct (0 <=? i)%Z eqn:E.
  - apply Z.leb_le in E. split.
    + intros Hj. split; [exact E |].
      destruct (slots tm !! Z.to_nat i) as [[e' |] |]; simpl in Hj; congruence.
    + intros [_ Hl]. rewrite Hl. reflexivity.
  - apply Z.leb_gt in E. split; [discriminate | intros [Hi _]; lia].
Qed.

Lemma GetTextureName_Some (tm : FTextureManager) (i : TextureIndex) (n : FName) :
  GetTextureName tm i = Some n <-> exists p, slot_at tm i = Some (n, p).
Proof.
  unfold GetTextureName. split.
  - destruct (slot_at tm i) as [[m p] |]; simpl; [| discriminate].
    intros [= ->]. eauto.
  - intros [p ->]. reflexivity.
Qed.

Lemma Resolve_Some (tm : FTextureManager) (i : TextureIndex) (n : FName) (p : UTexture2D) :
  Resolve tm i n = Some p <-> slot_at tm i = Some (n, p).
Proof.
  unfold Resolve. destruct (slot_at tm i) as [[m q] |]; [| split; discriminate].
  destruct (decide (m = n)) as [-> | Hne]; split; intros Heq; try congruence.
Qed.

(** The entry test succeeds exactly on a live slot stored under the handle's
    name. *)
Lemma HasValidEntry_true_iff (h : FImGuiTextureHandle) (st : ModuleState) :
  HasValidEntry h st = true <->
  exists m p,
    ImGuiModuleManager st = Some m /\
    slot_at (TextureManager m) (ToTextureIndex (TextureId h)) = Some (Name h, p).
Proof.
  unfold HasValidEntry. split.
  - intros Hv. apply andb_true_iff in Hv as [_ Hm].
    destruct (ImGuiModuleManager st) as [m |]; [| discriminate].
    apply bool_decide_eq_true in Hm. apply GetTextureName_Some in Hm as [p Hp].
    exists m, p. split; [reflexivity | exact Hp].
  - intros (m & p & -> & Hs). apply andb_true_iff. split.
    + apply negb_true_iff, Z.eqb_neq. intros Heq.
      rewrite Heq, slot_at_INDEX_NONE in Hs. discriminate.
    + apply bool_decide_eq_true, GetTextureName_Some. eauto.
Qed.

Lemma HasValidEntry_Resolve (h : FImGuiTextureHandle) (st : ModuleState) :
  HasValidEntry h st = true <->
  exists m p,
    ImGuiModuleManager st = Some m /\
    Resolve (TextureManager m) (ToTextureIndex (TextureId h)) (Name h) = Some p.
Proof.
  rewrite HasValidEntry_true_iff.
  split; intros (m & p & Hm & Hs); exists m, p; (split; [exact Hm |]);
    apply Resolve_Some; exact Hs.
Qed.

Lemma HasValidEntry_false_other_name (h : FImGuiTextureHandle) (st : ModuleState)
    (m : FImGuiModuleManager) (n : FName) (p : UTexture2D) :
  ImGuiModuleManager st = Some m ->
  slot_at (TextureManager m) (ToTextureIndex (TextureId h)) = Some (n, p) ->
  n <> Name h ->
  HasValidEntry h st = false.
Proof.
  intros Hm Hs Hne. apply not_true_is_false. intros Hv.
  apply HasValidEntry_true_iff in Hv as (m' & q & Hm' & Hs').
  congruence.
Qed.

Lemma HasValidEntry_false_free (h : FImGuiTextureHandle) (st : ModuleState)
    (m : FImGuiModuleManager) :
  ImGuiModuleManager st = Some m ->
  slot_at (TextureManager m) (ToTextureIndex (TextureId h)) = None ->
  HasValidEntry h st = false.
Proof.
  intros Hm Hs. apply not_true_is_false. intros Hv.
  apply HasValidEntry_true_iff in Hv as (m' & q & Hm' & Hs').
  congruence.
Qed.

(** C1: a texture handle has a valid entry exactly when the module manager
    exists and the slot its id encodes holds a live payload stored under the
    handle's own name.  In every other case the answer is [false]: an id that
    encodes [INDEX_NONE], the null manager, a free slot or an index out of
    range, and a slot stored under another name. *)
Theorem HasValidEntry_iff_live_slot_with_name (h : FImGuiTextureHandle) (st : ModuleState) :
  (HasValidEntry h st = true <->
   exists m p,
     ImGuiModuleManager st = Some m /\
     slot_at (TextureManager m) (ToTextureIndex (TextureId h)) = Some (Name h, p)) /\
  (ToTextureIndex (TextureId h) = INDEX_NONE -> HasValidEntry h st = false) /\
  (ImGuiModuleManager st = None -> HasValidEntry h st = false) /\
  (forall m,
     ImGuiModuleManager st = Some m ->
     slot_at (TextureManager m) (ToTextureIndex (TextureId h)) = None ->
     HasValidEntry h st = false) /\
  (forall m n p,
     ImGuiModuleManager st = Some m ->
     slot_at (TextureManager m) (ToTextureIndex (TextureId h)) = Some (n, p) ->
     n <> Name h ->
     HasValidEntry h st = false).
Proof.
  split; [apply HasValidEntry_true_iff |]. split; [| split; [| split]].
  - intros Hi. unfold HasValidEntry. rewrite Hi. reflexivity.
  - intros Hm. unfold HasValidEntry. rewrite Hm. apply andb_false_r.
  - intros m Hm Hs. eapply HasValidEntry_false_free; eassumption.
  - intros m n p Hm Hs Hne. eapply HasValidEntry_false_other_name; eassumption.
Qed.

(** ** Input mode and demo flags *)

(** C8: the input-mode and demo flags are plain booleans: a set is read back
    as written, a toggle inverts the flag, and two toggles restore it. *)
Theorem input_and_demo_flags (b : bool) (st : ModuleState) :
  IsInputMode (SetInputMode b st) = b /\
  IsShowingDemo (SetShowDemo b st) = b /\
  IsInputMode (ToggleInputMode st) = negb (IsInputMode st) /\
  IsShowingDemo (ToggleShowDemo st) = negb (IsShowingDemo st) /\
  IsInputMode (ToggleInputMode (ToggleInputMode st)) = IsInputMode st /\
  IsShowingDemo (ToggleShowDemo (ToggleShowDemo st)) = IsShowingDemo st.
Proof.
  assert (Hin : forall c s, IsInputMode (SetInputMode c s) = c) by (intros [] s; reflexivity).
  assert (Hdemo : forall c s, IsShowingDemo (SetShowDemo c s) = c) by (intros [] s; reflexivity).
  unfold ToggleInputMode, ToggleShowDemo.
  rewrite !Hin, !Hdemo, !negb_involutive. repeat split.
Qed.

(** Setting one flag leaves the other flag and the managers alone. *)
Lemma SetInputMode_frame (b : bool) (st : ModuleState) :
  IsShowingDemo (SetInputMode b st) = IsShowingDemo st /\
  ImGuiModuleManager (SetInputMode b st) = ImGuiModuleManager st.
Proof. split; reflexivity. Qed.

Lemma SetShowDemo_frame (b : bool) (st : ModuleState) :
  IsInputMode (SetShowDemo b st) = IsInputMode st /\
  ImGuiModuleManager (SetShowDemo b st) = ImGuiModuleManager st.
Proof. split; reflexivity. Qed.

(** ** Removal of draw delegates *)

Lemma Event_Remove_idempotent (ev : FImGuiDrawEvent) (k : FDelegateHandle) :
  Event_Remove (Event_Remove ev k) k = Event_Remove ev k.
Proof.
  unfold Event_Remove. induction ev as [| e ev IH]; [reflexivity |].
  rewrite filter_cons. destruct (decide (e.1 <> k)) as [Hk | Hk].
  - rewrite filter_cons, decide_True by exact Hk. f_equal. exact IH.
  - exact IH.
Qed.

Lemma Event_Remove_absent (ev : FImGuiDrawEvent) (k : FDelegateHandle) :
  k ∉ ev.*1 -> Event_Remove ev k = ev.
Proof.
  unfold Event_Remove. induction ev as [| e ev IH]; [reflexivity |].
  rewrite fmap_cons, not_elem_of_cons. intros [Hne Hnot].
  rewrite filter_cons, decide_True by (intros Heq; apply Hne; symmetry; exact Heq).
  f_equal. apply IH, Hnot.
Qed.

Lemma Event_Remove_exact (l1 l2 : FImGuiDrawEvent) (k : FDelegateHandle) (d : FImGuiDelegate) :
  k ∉ (l1 ++ l2).*1 -> Event_Remove (l1 ++ (k, d) :: l2) k = l1 ++ l2.
Proof.
  rewrite fmap_app, not_elem_of_app. intros [H1 H2]. unfold Event_Remove.
  rewrite filter_app, filter_cons, decide_False by (simpl; intros Hne; apply Hne; reflexivity).
  f_equal; [apply (Event_Remove_absent l1 k H1) | apply (Event_Remove_absent l2 k H2)].
Qed.

Lemma Proxy_OnDraw_Remove_idempotent (cm : FImGuiContextManager) (i : Z) (k : FDelegateHandle) :
  Proxy_OnDraw_Remove (Proxy_OnDraw_Remove cm i k) i k = Proxy_OnDraw_Remove cm i k.
Proof.
  unfold Proxy_OnDraw_Remove. destruct (Contexts cm !! i) as [p |] eqn:Hp; simpl.
  - rewrite lookup_insert_eq. simpl.
    rewrite insert_insert_eq, Event_Remove_idempotent. reflexivity.
  - rewrite Hp. reflexivity.
Qed.

Lemma RemoveImGuiDelegate_idempotent (h : FImGuiDelegateHandle) (st : ModuleState) :
  RemoveImGuiDelegate h (RemoveImGuiDelegate h st) = RemoveImGuiDelegate h st.
Proof.
  unfold RemoveImGuiDelegate.
  destruct (ImGuiModuleManager st) as [m |] eqn:Hm; [| rewrite Hm; reflexivity].
  destruct (decide (Category h = MultiContext)) as [Hc | Hc].
  - simpl. rewrite Event_Remove_idempotent. reflexivity.
  - destruct (GetContextProxy (ContextManager m) (Index h)) as [p |] eqn:Hp.
    + simpl. unfold GetContextProxy in *.
      replace (Contexts (Proxy_OnDraw_Remove (ContextManager m) (Index h) (Handle h))
                 !! Index h)
        with (Some {| OnDraw := Event_Remove (OnDraw p) (Handle h) |})
        by (unfold Proxy_OnDraw_Remove; rewrite Hp; simpl;
            rewrite lookup_insert_eq; reflexivity).
      rewrite Proxy_OnDraw_Remove_idempotent. reflexivity.
    + rewrite Hm, Hp. reflexivity.
Qed.

(** ** Release of textures *)

Lemma ReleaseTexture_invalid (h : FImGuiTextureHandle) (st : ModuleState) :
  HasValidEntry h st = false -> ReleaseTexture h st = Ok st.
Proof. intros Hv. unfold ReleaseTexture, IsValid. rewrite Hv. reflexivity. Qed.

Lemma ReleaseTexture_valid (h : FImGuiTextureHandle) (st : ModuleState) :
  HasValidEntry h st = true ->
  exists m,
    ImGuiModuleManager st = Some m /\
    ReleaseTexture h st =
      Ok (set_manager st (Some (set_texture_manager m
            {| slots := <[Z.to_nat (ToTextureIndex (TextureId h)) := None]>
                          (slots (TextureManager m));
               free_list := ToTextureIndex (TextureId h) :: free_list (TextureManager m) |}))).
Proof.
  intros Hv. unfold ReleaseTexture, IsValid. rewrite Hv.
  apply HasValidEntry_true_iff in Hv as (m & p & Hm & Hs).
  exists m. split; [exact Hm |]. rewrite Hm.
  unfold ReleaseTextureResources, GetTextureId. rewrite Hs. reflexivity.
Qed.

Lemma slot_at_cleared (tm : FTextureManager) (i : TextureIndex) (fl : list TextureIndex) :
  slot_at {| slots := <[Z.to_nat i := None]> (slots tm); free_list := fl |} i = None.
Proof.
  unfold slot_at. simpl. destruct (0 <=? i)%Z; [| reflexivity].
  destruct (decide (Z.to_nat i < length (slots tm))%nat) as [Hlt | Hge].
  - rewrite list_lookup_insert_eq by exact Hlt. reflexivity.
  - rewrite list_insert_ge by lia. rewrite lookup_ge_None_2 by lia. reflexivity.
Qed.

Lemma ReleaseTexture_then_invalid (h : FImGuiTextureHandle) (st st1 : ModuleState) :
  HasValidEntry h st = true ->
  ReleaseTexture h st = Ok st1 ->
  HasValidEntry h st1 = false.
Proof.
  intros Hv Hr. destruct (ReleaseTexture_valid h st Hv) as (m & Hm & Heq).
  rewrite Heq in Hr. injection Hr as <-.
  eapply HasValidEntry_false_free; [reflexivity |]. simpl. apply slot_at_cleared.
Qed.

(** [ReleaseTexture] never fails: the validity test guards both the manager
    pointer and the slot. *)
Lemma ReleaseTexture_total (h : FImGuiTextureHandle) (st : ModuleState) :
  exists st1, ReleaseTexture h st = Ok st1.
Proof.
  destruct (HasValidEntry h st) eqn:Hv.
  - destruct (ReleaseTexture_valid h st Hv) as (m & _ & Heq). eauto.
  - exists st. apply ReleaseTexture_invalid, Hv.
Qed.

(** C5: removal and release are idempotent.  A second [RemoveImGuiDelegate]
    with the same handle leaves the state of the first; [ReleaseTexture]
    always returns normally, a second release of the same handle changes
    nothing, and so does the release of a handle that has no valid entry. *)
Theorem remove_and_release_idempotent :
  (forall (h : FImGuiDelegateHandle) (st : ModuleState),
     RemoveImGuiDelegate h (RemoveImGuiDelegate h st) = RemoveImGuiDelegate h st) /\
  (forall (h : FImGuiTextureHandle) (st : ModuleState),
     exists st1, ReleaseTexture h st = Ok st1 /\ ReleaseTexture h st1 = Ok st1) /\
  (forall (h : FImGuiTextureHandle) (st : ModuleState),
     HasValidEntry h st = false -> ReleaseTexture h st = Ok st).
Proof.
  split; [apply RemoveImGuiDelegate_idempotent |].
  split; [| apply ReleaseTexture_invalid].
  intros h st. destruct (ReleaseTexture_total h st) as [st1 Hr].
  exists st1. split; [exact Hr |].
  apply ReleaseTexture_invalid.
  destruct (HasValidEntry h st) eqn:Hv.
  - eapply ReleaseTexture_then_invalid; eassumption.
  - rewrite (ReleaseTexture_invalid h st Hv) in Hr. injection Hr as <-. exact Hv.
Qed.

(** C10: a handle whose id encodes [INDEX_NONE] never has a valid entry,
    whatever its name and whatever the registry holds, and releasing it
    releases nothing. *)
Theorem INDEX_NONE_handle_is_invalid (h : FImGuiTextureHandle) (st : ModuleState) :
  ToTextureIndex (TextureId h) = INDEX_NONE ->
  HasValidEntry h st = false /\ ReleaseTexture h st = Ok st.
Proof.
  intros Hi.
  assert (Hv : HasValidEntry h st = false).
  { unfold HasValidEntry. rewrite Hi. reflexivity. }
  split; [exact Hv | apply ReleaseTexture_invalid, Hv].
Qed.

Lemma NullTextureHandle_index : ToTextureIndex (TextureId NullTextureHandle) = INDEX_NONE.
Proof. reflexivity. Qed.

(** ** Shutdown *)

Lemma ShutdownModule_clears_manager (st st' : ModuleState) :
  ShutdownModule st = Ok st' -> ImGuiModuleManager st' = None.
Proof.
  unfold ShutdownModule. destruct WITH_EDITOR.
  - destruct (bool_decide (ImGuiEditor st <> None)); simpl; [| discriminate].
    destruct (bool_decide (ImGuiModuleManager st <> None)); simpl; [| discriminate].
    intros [= <-]. reflexivity.
  - simpl. destruct (bool_decide (ImGuiModuleManager st <> None)); simpl; [| discriminate].
    intros [= <-]. reflexivity.
Qed.

Lemma RemoveImGuiDelegate_null_manager (h : FImGuiDelegateHandle) (st : ModuleState) :
  ImGuiModuleManager st = None -> RemoveImGuiDelegate h st = st.
Proof. intros Hm. unfold RemoveImGuiDelegate. rewrite Hm. reflexivity. Qed.

(** C9: once [ShutdownModule] has returned, the manager pointer is null and
    [RemoveImGuiDelegate] with any handle returns the state it was given: it
    reaches no manager and changes nothing. *)
Theorem RemoveImGuiDelegate_after_shutdown (h : FImGuiDelegateHandle) (st st' : ModuleState) :
  ShutdownModule st = Ok st' ->
  ImGuiModuleManager st' = None /\ RemoveImGuiDelegate h st' = st'.
Proof.
  intros Hs. apply ShutdownModule_clears_manager in Hs.
  split; [exact Hs | apply RemoveImGuiDelegate_null_manager, Hs].
Qed.

(** ** Lookup of textures by name *)

Lemma find_from_spec (l : list (option (FName * UTexture2D))) (n : FName) (i0 : TextureIndex) :
  (0 <= i0)%Z ->
  (find_from l n i0 = INDEX_NONE /\ forall k p, l !! k <> Some (Some (n, p))) \/
  (exists k q, find_from l n i0 = (i0 + Z.of_nat k)%Z /\ l !! k = Some (Some (n, q))).
Proof.
  revert i0. induction l as [| s l IH]; intros i0 Hi0.
  - left. split; [reflexivity |]. intros k p. rewrite lookup_nil. discriminate.
  - assert (Hnext : (0 <= i0 + 1)%Z) by lia.
    assert (Hskip :
      (forall p, s <> Some (n, p)) ->
      (find_from l n (i0 + 1)%Z = INDEX_NONE /\ forall k p, l !! k <> Some (Some (n, p))) \/
      (exists k q, find_from l n (i0 + 1)%Z = (i0 + 1 + Z.of_nat k)%Z /\
                   l !! k = Some (Some (n, q))) ->
      (find_from l n (i0 + 1)%Z = INDEX_NONE /\
         forall k p, (s :: l) !! k <> Some (Some (n, p))) \/
      (exists k q, find_from l n (i0 + 1)%Z = (i0 + Z.of_nat k)%Z /\
                   (s :: l) !! k = Some (Some (n, q)))).
    { intros Hs [[Hf Hno] | (k & q & Hf & Hk)].
      - left. split; [exact Hf |]. intros [| k] p; simpl.
        + intros [= Heq]. exact (Hs p Heq).
        + apply Hno.
      - right. exists (S k), q. split; [rewrite Hf; lia | exact Hk]. }
    simpl. destruct s as [[m q] |].
    + destruct (decide (m = n)) as [-> | Hne].
      * right. exists 0%nat, q. split; [simpl; lia | reflexivity].
      * apply Hskip; [intros p [= Heq _]; exact (Hne Heq) | apply IH, Hnext].
    + apply Hskip; [intros p; discriminate | apply IH, Hnext].
Qed.

Lemma FindTextureIndex_spec (tm : FTextureManager) (n : FName) :
  (FindTextureIndex tm n = INDEX_NONE /\ forall i p, slot_at tm i <> Some (n, p)) \/
  (FindTextureIndex tm n <> INDEX_NONE /\
   exists q, slot_at tm (FindTextureIndex tm n) = Some (n, q)).
Proof.
  unfold FindTextureIndex.
  destruct (find_from_spec (slots tm) n 0%Z) as [[Hf Hno] | (k & q & Hf & Hk)]; [lia | |].
  - left. split; [exact Hf |]. intros i p Hs.
    apply slot_at_Some in Hs as [_ Hs]. exact (Hno _ _ Hs).
  - right. rewrite Hf. split; [unfold INDEX_NONE; lia |].
    exists q. apply slot_at_Some. split; [lia |].
    replace (Z.to_nat (0 + Z.of_nat k)) with k by lia. exact Hk.
Qed.

(** C7: with the module manager in place, [FindTextureHandle n] returns the
    null handle (which has no valid entry) when no live slot stores [n], and
    otherwise a handle that carries the name [n] and the id of a live slot
    that stores [n]. *)
Theorem FindTextureHandle_spec (n : FName) (st : ModuleState) (m : FImGuiModuleManager) :
  ImGuiModuleManager st = Some m ->
  ((forall i p, slot_at (TextureManager m) i <> Some (n, p)) ->
   FindTextureHandle n st = Ok NullTextureHandle /\
   HasValidEntry NullTextureHandle st = false) /\
  ((exists i p, slot_at (TextureManager m) i = Some (n, p)) ->
   exists j q,
     FindTextureHandle n st = Ok {| Name := n; TextureId := ToImTextureID j |} /\
     slot_at (TextureManager m) j = Some (n, q) /\
     HasValidEntry {| Name := n; TextureId := ToImTextureID j |} st = true).
Proof.
  intros Hm. unfold FindTextureHandle. rewrite Hm.
  destruct (FindTextureIndex_spec (TextureManager m) n) as [[Hf Hno] | [Hf [q Hq]]].
  - split.
    + intros _. rewrite Hf. split; reflexivity.
    + intros (i & p & Hs). exfalso. exact (Hno _ _ Hs).
  - split.
    + intros Hno. exfalso. exact (Hno _ _ Hq).
    + intros _. exists (FindTextureIndex (TextureManager m) n), q.
      apply Z.eqb_neq in Hf. rewrite Hf. simpl.
      split; [reflexivity |]. split; [exact Hq |].
      apply HasValidEntry_true_iff. exists m, q. split; [exact Hm | exact Hq].
Qed.

(** ** The registry invariant and slot reuse *)

(** The invariant of the slot registry: "an index present in [free_list] has
    no live payload; an index with a live payload is never in [free_list]".
    Every index of the free list is the index of a cleared slot, once. *)
Definition wf_textures (tm : FTextureManager) : Prop :=
  NoDup (free_list tm) /\
  forall i, i ∈ free_list tm -> (0 <= i)%Z /\ slots tm !! Z.to_nat i = Some None.

Lemma wf_textures_new : wf_textures (TextureManager NewModuleManager).
Proof.
  split; simpl; [apply NoDup_nil_2 |]. intros i Hi. apply elem_of_nil in Hi. contradiction.
Qed.

Lemma slot_at_insert_eq (tm : FTextureManager) (i : TextureIndex)
    (v : option (FName * UTexture2D)) (fl : list TextureIndex) :
  (0 <= i)%Z -> (Z.to_nat i < length (slots tm))%nat ->
  slot_at {| slots := <[Z.to_nat i := v]> (slots tm); free_list := fl |} i = v.
Proof.
  intros Hi Hlt. unfold slot_at. simpl.
  destruct (0 <=? i)%Z eqn:E; [| apply Z.leb_gt in E; lia].
  rewrite list_lookup_insert_eq by exact Hlt. reflexivity.
Qed.

Lemma slot_at_insert_ne (tm : FTextureManager) (i j : TextureIndex)
    (v : option (FName * UTexture2D)) (fl : list TextureIndex) :
  (0 <= i)%Z -> j <> i ->
  slot_at {| slots := <[Z.to_nat i := v]> (slots tm); free_list := fl |} j = slot_at tm j.
Proof.
  intros Hi Hne. unfold slot_at. simpl.
  destruct (0 <=? j)%Z eqn:E; [| reflexivity]. apply Z.leb_le in E.
  rewrite list_lookup_insert_ne by lia. reflexivity.
Qed.

Lemma slot_at_beyond (tm : FTextureManager) (i : TextureIndex) :
  (Z.of_nat (length (slots tm)) <= i)%Z -> slot_at tm i = None.
Proof.
  intros Hi. unfold slot_at. destruct (0 <=? i)%Z; [| reflexivity].
  rewrite lookup_ge_None_2 by lia. reflexivity.
Qed.

Lemma slot_at_in_range (tm : FTextureManager) (i : TextureIndex) (e : FName * UTexture2D) :
  slot_at tm i = Some e -> (0 <= i)%Z /\ (Z.to_nat i < length (slots tm))%nat.
Proof.
  intros Hs. apply slot_at_Some in Hs as [Hi Hl]. split; [exact Hi |].
  eapply lookup_lt_Some. exact Hl.
Qed.

(** [Allocate] in a well-formed registry: the returned index was free, now
    holds the new pair, and no other slot changed. *)
Lemma Allocate_spec (tm tm' : FTextureManager) (n : FName) (p : UTexture2D) (i : TextureIndex) :
  wf_textures tm ->
  Allocate tm n p = (i, tm') ->
  wf_textures tm' /\
  slot_at tm i = None /\
  slot_at tm' i = Some (n, p) /\
  forall j, j <> i -> slot_at tm' j = slot_at tm j.
Proof.
  intros [Hnd Hfree] Ha. unfold Allocate in Ha.
  destruct (free_list tm) as [| i0 rest] eqn:Hfl.
  - injection Ha as <- <-. split; [| split; [| split]].
    + split; simpl; [apply NoDup_nil_2 |].
      intros j Hj. apply elem_of_nil in Hj. contradiction.
    + apply slot_at_beyond. lia.
    + unfold slot_at. simpl.
      destruct (0 <=? Z.of_nat (length (slots tm)))%Z eqn:E; [| apply Z.leb_gt in E; lia].
      rewrite Nat2Z.id, lookup_app_r by lia. rewrite Nat.sub_diag. reflexivity.
    + intros j Hj. unfold slot_at. simpl. destruct (0 <=? j)%Z eqn:E; [| reflexivity].
      apply Z.leb_le in E.
      destruct (decide (Z.to_nat j < length (slots tm))%nat) as [Hlt | Hge].
      * rewrite lookup_app_l by exact Hlt. reflexivity.
      * rewrite (lookup_ge_None_2 (slots tm)) by lia.
        rewrite lookup_ge_None_2; [reflexivity |]. rewrite length_app. simpl. lia.
  - injection Ha as <- <-.
    destruct (Hfree i0) as [Hi0 Hl0]; [apply elem_of_cons; left; reflexivity |].
    assert (Hlt : (Z.to_nat i0 < length (slots tm))%nat) by (eapply lookup_lt_Some; exact Hl0).
    apply NoDup_cons in Hnd as [Hnotin Hnd].
    split; [| split; [| split]].
    + split; simpl; [exact Hnd |]. intros j Hj.
      destruct (Hfree j) as [Hj0 Hlj]; [apply elem_of_cons; right; exact Hj |].
      split; [exact Hj0 |].
      assert (j <> i0) by (intros ->; contradiction).
      rewrite list_lookup_insert_ne by lia. exact Hlj.
    + unfold slot_at. destruct (0 <=? i0)%Z; [| reflexivity]. rewrite Hl0. reflexivity.
    + apply slot_at_insert_eq; assumption.
    + intros j Hj. apply slot_at_insert_ne; assumption.
Qed.

(** [ReleaseTextureResources] in a well-formed registry. *)
Lemma ReleaseTextureResources_spec (tm tm' : FTextureManager) (i : TextureIndex) :
  wf_textures tm ->
  ReleaseTextureResources tm i = Ok tm' ->
  wf_textures tm' /\
  slot_at tm' i = None /\
  free_list tm' = i :: free_list tm /\
  forall j, j <> i -> slot_at tm' j = slot_at tm j.
Proof.
  intros [Hnd Hfree] Hr. unfold ReleaseTextureResources in Hr.
  destruct (slot_at tm i) as [e |] eqn:Hs; [| discriminate].
  injection Hr as <-. destruct (slot_at_in_range _ _ _ Hs) as [Hi Hlt].
  apply slot_at_Some in Hs as [_ Hl].
  split; [| split; [| split]].
  - split; simpl.
    + apply NoDup_cons. split; [| exact Hnd].
      intros Hin. destruct (Hfree i Hin) as [_ Hnone]. congruence.
    + intros j Hj. apply elem_of_cons in Hj as [-> | Hj].
      * split; [exact Hi |]. apply list_lookup_insert_eq. exact Hlt.
      * destruct (Hfree j Hj) as [Hj0 Hlj]. split; [exact Hj0 |].
        assert (j <> i) by (intros ->; congruence).
        rewrite list_lookup_insert_ne by lia. exact Hlj.
  - apply slot_at_insert_eq; assumption.
  - reflexivity.
  - intros j Hj. apply slot_at_insert_ne; assumption.
Qed.

(** [CreateTextureResources] in a well-formed registry: the returned index
    holds the name afterwards; it holds the new payload unless the name was
    already registered and deduplicated. *)
Lemma CreateTextureResources_spec (tm tm' : FTextureManager) (n : FName) (p : UTexture2D)
    (u : bool) (i : TextureIndex) :
  wf_textures tm ->
  CreateTextureResources tm n p u = (i, tm') ->
  wf_textures tm' /\
  (forall j, j <> i -> slot_at tm' j = slot_at tm j) /\
  ((tm' = tm /\ exists q, slot_at tm i = Some (n, q)) \/
   (slot_at tm i = None /\ slot_at tm' i = Some (n, p))).
Proof.
  intros Hwf Hc. unfold CreateTextureResources in Hc.
  destruct (negb u && negb (FindTextureIndex tm n =? INDEX_NONE)%Z) eqn:Hd.
  - injection Hc as <- <-. split; [exact Hwf |]. split; [reflexivity |]. left.
    split; [reflexivity |].
    apply andb_true_iff in Hd as [_ Hd]. apply negb_true_iff, Z.eqb_neq in Hd.
    destruct (FindTextureIndex_spec tm n) as [[Hf _] | [_ Hq]]; [contradiction | exact Hq].
  - destruct (Allocate_spec _ _ _ _ _ Hwf Hc) as (Hwf' & Hfree & Hnew & Hother).
    split; [exact Hwf' |]. split; [exact Hother |]. right. split; assumption.
Qed.

(** A slot that holds a pair stored under one name rejects every handle
    issued under another name and resolves under its own name. *)
Lemma stale_handle_never_aliases (st : ModuleState) (m : FImGuiModuleManager)
    (i : TextureIndex) (A B : FName) (p : UTexture2D) :
  ImGuiModuleManager st = Some m ->
  slot_at (TextureManager m) i = Some (B, p) ->
  A <> B ->
  HasValidEntry {| Name := A; TextureId := ToImTextureID i |} st = false /\
  Resolve (TextureManager m) i A = None /\
  Resolve (TextureManager m) i B = Some p /\
  HasValidEntry {| Name := B; TextureId := ToImTextureID i |} st = true.
Proof.
  intros Hm Hs Hne. split; [| split; [| split]].
  - eapply HasValidEntry_false_other_name; [exact Hm | exact Hs |].
    simpl. intros Heq. apply Hne. symmetry. exact Heq.
  - unfold Resolve. rewrite Hs. rewrite decide_False; [reflexivity |].
    intros Heq. apply Hne. symmetry. exact Heq.
  - apply Resolve_Some. exact Hs.
  - apply HasValidEntry_true_iff. exists m, p. split; [exact Hm | exact Hs].
Qed.

Lemma RegisterTexture_inv (n : FName) (p : UTexture2D) (u : bool) (st st' : ModuleState)
    (h : FImGuiTextureHandle) :
  RegisterTexture n p u st = Ok (h, st') ->
  exists m i tm',
    ImGuiModuleManager st = Some m /\
    CreateTextureResources (TextureManager m) n p u = (i, tm') /\
    h = {| Name := n; TextureId := ToImTextureID i |} /\
    st' = set_manager st (Some (set_texture_manager m tm')).
Proof.
  unfold RegisterTexture. destruct (ImGuiModuleManager st) as [m |]; [| discriminate].
  destruct (CreateTextureResources (TextureManager m) n p u) as [i tm'] eqn:Hc.
  intros [= <- <-]. exists m, i, tm'. split; [reflexivity |]. split; [exact Hc |].
  split; reflexivity.
Qed.

(** The registry invariant holds in a new manager and is kept by the two
    facade calls that change the registry. *)
Lemma RegisterTexture_wf (n : FName) (p : UTexture2D) (u : bool) (st st' : ModuleState)
    (h : FImGuiTextureHandle) :
  (forall m, ImGuiModuleManager st = Some m -> wf_textures (TextureManager m)) ->
  RegisterTexture n p u st = Ok (h, st') ->
  forall m', ImGuiModuleManager st' = Some m' -> wf_textures (TextureManager m').
Proof.
  intros Hwf Hr. apply RegisterTexture_inv in Hr as (m & i & tm' & Hm & Hc & _ & ->).
  intros m' [= <-]. simpl.
  destruct (CreateTextureResources_spec _ _ _ _ _ _ (Hwf m Hm) Hc) as [Hwf' _]. exact Hwf'.
Qed.

Lemma ReleaseTexture_wf (h : FImGuiTextureHandle) (st st' : ModuleState) :
  (forall m, ImGuiModuleManager st = Some m -> wf_textures (TextureManager m)) ->
  ReleaseTexture h st = Ok st' ->
  forall m', ImGuiModuleManager st' = Some m' -> wf_textures (TextureManager m').
Proof.
  intros Hwf Hr. destruct (HasValidEntry h st) eqn:Hv.
  - pose proof Hv as Hv'.
    apply HasValidEntry_true_iff in Hv' as (m & p & Hm & Hs).
    destruct (ReleaseTexture_valid h st Hv) as (m0 & Hm0 & Heq).
    rewrite Hm in Hm0. injection Hm0 as <-.
    rewrite Heq in Hr. injection Hr as <-. intros m' [= <-]. simpl.
    eapply (ReleaseTextureResources_spec (TextureManager m)); [apply Hwf, Hm |].
    unfold ReleaseTextureResources. rewrite Hs. reflexivity.
  - rewrite (ReleaseTexture_invalid h st Hv) in Hr. injection Hr as <-. exact Hwf.
Qed.


(** Register under [A], release, register under another name [B], in a
    well-formed registry. *)
Lemma register_release_register
    (st st1 st2 st3 : ModuleState) (m : FImGuiModuleManager) (A B : FName)
    (p1 p2 : UTexture2D) (u1 u2 : bool) (hA hB : FImGuiTextureHandle) :
  ImGuiModuleManager st = Some m ->
  wf_textures (TextureManager m) ->
  A <> B ->
  RegisterTexture A p1 u1 st = Ok (hA, st1) ->
  ReleaseTexture hA st1 = Ok st2 ->
  RegisterTexture B p2 u2 st2 = Ok (hB, st3) ->
  exists m3,
    ImGuiModuleManager st3 = Some m3 /\
    HasValidEntry hA st1 = true /\
    HasValidEntry hA st3 = false /\
    Resolve (TextureManager m3) (ToTextureIndex (TextureId hA)) A = None /\
    HasValidEntry hB st3 = true /\
    (ToTextureIndex (TextureId hB) = ToTextureIndex (TextureId hA) ->
     Resolve (TextureManager m3) (ToTextureIndex (TextureId hA)) B = Some p2).
Proof.
  intros Hm Hwf Hne HrA Hrel HrB.
  apply RegisterTexture_inv in HrA as (m0 & i & tm1 & Hm0 & Hc1 & -> & ->).
  rewrite Hm in Hm0. injection Hm0 as <-.
  destruct (CreateTextureResources_spec _ _ _ _ _ _ Hwf Hc1) as (Hwf1 & _ & Hi1).
  assert (HvA : HasValidEntry {| Name := A; TextureId := ToImTextureID i |}
                  (set_manager st (Some (set_texture_manager m tm1))) = true).
  { apply HasValidEntry_true_iff. simpl.
    destruct Hi1 as [[-> [q Hq]] | [_ Hq]]; eauto. }
  destruct (ReleaseTexture_valid _ _ HvA) as (m1 & Hm1 & Heq).
  rewrite Heq in Hrel. injection Hrel as <-. simpl in Hm1. injection Hm1 as <-.
  simpl in HrB.
  apply RegisterTexture_inv in HrB as (m2 & j & tm3 & Hm2 & Hc3 & -> & ->).
  simpl in Hm2. injection Hm2 as <-. simpl in Hc3.
  set (tm2 := {| slots := <[Z.to_nat i := None]> (slots tm1); free_list := i :: free_list tm1 |})
    in *.
  assert (Hrel2 : ReleaseTextureResources tm1 i = Ok tm2).
  { unfold ReleaseTextureResources.
    destruct Hi1 as [[-> [q Hq]] | [_ Hq]]; rewrite Hq; reflexivity. }
  destruct (ReleaseTextureResources_spec _ _ _ Hwf1 Hrel2) as (Hwf2 & Hfree2 & _ & _).
  destruct (CreateTextureResources_spec _ _ _ _ _ _ Hwf2 Hc3) as (Hwf3 & Hother & Hj).
  eexists. split; [reflexivity |]. simpl.
  assert (HvB : exists q, slot_at tm3 j = Some (B, q)).
  { destruct Hj as [[-> [q Hq]] | [_ Hq]]; eauto. }
  assert (Hi3 : slot_at tm3 i = None \/ slot_at tm3 i = Some (B, p2)).
  { destruct (decide (i = j)) as [-> | Hij].
    - destruct Hj as [[_ [q Hq]] | [_ Hq]]; [congruence | right; exact Hq].
    - left. rewrite Hother by exact Hij. exact Hfree2. }
  split; [exact HvA |]. split; [| split; [| split]].
  - destruct Hi3 as [Hnone | Hsome].
    + eapply HasValidEntry_false_free; [reflexivity | exact Hnone].
    + eapply HasValidEntry_false_other_name; [reflexivity | exact Hsome |].
      simpl. intros Heq'. apply Hne. symmetry. exact Heq'.
  - unfold Resolve. destruct Hi3 as [-> | ->]; [reflexivity |].
    rewrite decide_False; [reflexivity |]. intros Heq'. apply Hne. symmetry. exact Heq'.
  - destruct HvB as [q Hq]. apply HasValidEntry_true_iff. simpl. eauto.
  - intros <-. apply Resolve_Some.
    destruct Hj as [[_ [q Hq]] | [_ Hq]]; [congruence | exact Hq].
Qed.

(** C2: a stale handle never resolves to the slot's new occupant.  First, in
    any state, however it was reached, in which the slot of index [i] holds a
    payload stored under [B]: a handle for [i] issued under another name [A]
    has no valid entry and [i] does not resolve under [A], while [i] resolves
    under [B] to the payload the slot holds.  Second, in a well-formed
    registry, register a texture under [A], release it and register one under
    [B]: the handle of [A] was valid and is now stale, whether or not its slot
    was reused; the handle of [B] is valid, and when [B] took over the index
    of [A] that index resolves under [B] to the new payload. *)
Theorem stale_handle_after_slot_reuse :
  (forall (st : ModuleState) (m : FImGuiModuleManager) (i : TextureIndex) (A B : FName)
          (p : UTexture2D),
     ImGuiModuleManager st = Some m ->
     slot_at (TextureManager m) i = Some (B, p) ->
     A <> B ->
     HasValidEntry {| Name := A; TextureId := ToImTextureID i |} st = false /\
     Resolve (TextureManager m) i A = None /\
     Resolve (TextureManager m) i B = Some p /\
     HasValidEntry {| Name := B; TextureId := ToImTextureID i |} st = true) /\
  (forall (st st1 st2 st3 : ModuleState) (m : FImGuiModuleManager) (A B : FName)
          (p1 p2 : UTexture2D) (u1 u2 : bool) (hA hB : FImGuiTextureHandle),
     ImGuiModuleManager st = Some m ->
     wf_textures (TextureManager m) ->
     A <> B ->
     RegisterTexture A p1 u1 st = Ok (hA, st1) ->
     ReleaseTexture hA st1 = Ok st2 ->
     RegisterTexture B p2 u2 st2 = Ok (hB, st3) ->
     exists m3,
       ImGuiModuleManager st3 = Some m3 /\
       HasValidEntry hA st1 = true /\
       HasValidEntry hA st3 = false /\
       Resolve (TextureManager m3) (ToTextureIndex (TextureId hA)) A = None /\
       HasValidEntry hB st3 = true /\
       (ToTextureIndex (TextureId hB) = ToTextureIndex (TextureId hA) ->
        Resolve (TextureManager m3) (ToTextureIndex (TextureId hA)) B = Some p2)).
Proof.
  split.
  - intros st m i A B p. apply stale_handle_never_aliases.
  - intros st st1 st2 st3 m A B p1 p2 u1 u2 hA hB.
    apply register_release_register.
Qed.

(** ** Adding draw delegates *)

(** The draw event of context [i] as an add finds it: empty when the context
    is created by the add. *)
Definition context_event (cm : FImGuiContextManager) (i : Z) : FImGuiDrawEvent :=
  match Contexts cm !! i with
  | Some p => OnDraw p
  | None => []
  end.

(** The world context [AddWorldImGuiDelegate] settles on in an editor build:
    the game viewport's, else the dedicated server's. *)
Definition current_world_context (eng : FEngine) : option FWorldContext :=
  match GameViewportWorldContext eng with
  | Some wc => Some wc
  | None => DedicatedServerWorldContext eng
  end.

(** The context index [AddWorldImGuiDelegate] resolves, when its checks on
    the engine pass and the world context has a world. *)
Definition world_context_index (eng : FEngine) : option Z :=
  if WITH_EDITOR then
    if GEngine eng then
      match current_world_context eng with
      | Some wc => GetWorldContextIndex <$> World wc
      | None => None
      end
    else None
  else Some STANDALONE_GAME_CONTEXT_INDEX.

(** How [AddWorldImGuiDelegate] fails when it resolves no index: on the null
    world of the world context it found, else on a check. *)
Definition world_failure (eng : FEngine) : Failure :=
  match (if WITH_EDITOR && GEngine eng then current_world_context eng else None) with
  | Some _ => NullDereference
  | None => CheckFailed
  end.

(** The state after an entry [(k, d)] has been appended to context [i]. *)
Definition added_to_context (m : FImGuiModuleManager) (i : Z) (d : FImGuiDelegate)
    (st : ModuleState) : ModuleState :=
  {| ImGuiModuleManager :=
       Some {| ContextManager :=
                 {| Contexts :=
                      <[i := {| OnDraw := Event_Add (context_event (ContextManager m) i)
                                            (NextDelegateID st) d |}]>
                        (Contexts (ContextManager m));
                    OnDrawMultiContext := OnDrawMultiContext (ContextManager m) |};
               TextureManager := TextureManager m |};
     ImGuiEditor := ImGuiEditor st;
     InputEnabled := InputEnabled st;
     ShowDemo := ShowDemo st;
     NextDelegateID := N.succ (NextDelegateID st);
     ModulesChangedHandlers := ModulesChangedHandlers st |}.

Lemma AddToContext_eq (m : FImGuiModuleManager) (i : Z) (d : FImGuiDelegate) (st : ModuleState) :
  AddToContext m i d st =
  ({| Handle := NextDelegateID st; Category := Default; Index := i |},
   added_to_context m i d st).
Proof.
  unfold AddToContext, added_to_context, context_event, GenerateNewID, GetOrCreateContext,
    Proxy_OnDraw_Add, set_manager, set_context_manager.
  destruct (Contexts (ContextManager m) !! i) as [p |] eqn:Hp; simpl.
  - rewrite Hp. reflexivity.
  - rewrite lookup_insert_eq. simpl. rewrite insert_insert_eq. reflexivity.
Qed.

Lemma AddWorldImGuiDelegate_eq (eng : FEngine) (d : FImGuiDelegate) (st : ModuleState) :
  AddWorldImGuiDelegate eng d st =
  match ImGuiModuleManager st with
  | Some m =>
      match world_context_index eng with
      | Some i =>
          Ok ({| Handle := NextDelegateID st; Category := Default; Index := i |},
              added_to_context m i d st)
      | None => Fail (world_failure eng)
      end
  | None => Fail CheckFailed
  end.
Proof.
  unfold AddWorldImGuiDelegate, world_context_index, world_failure, current_world_context.
  destruct (ImGuiModuleManager st) as [m |]; [| reflexivity].
  destruct WITH_EDITOR; [| rewrite AddToContext_eq; reflexivity].
  destruct (GEngine eng); simpl; [| reflexivity].
  destruct (GameViewportWorldContext eng) as [[[w |]] |]; simpl;
    [rewrite AddToContext_eq; reflexivity | reflexivity |].
  destruct (DedicatedServerWorldContext eng) as [[[w |]] |]; simpl;
    [rewrite AddToContext_eq; reflexivity | reflexivity | reflexivity].
Qed.

Lemma AddEditorImGuiDelegate_eq (d : FImGuiDelegate) (st : ModuleState) :
  AddEditorImGuiDelegate d st =
  match ImGuiModuleManager st with
  | Some m =>
      Ok ({| Handle := NextDelegateID st; Category := Default;
             Index := EDITOR_CONTEXT_INDEX |},
          added_to_context m EDITOR_CONTEXT_INDEX d st)
  | None => Fail CheckFailed
  end.
Proof.
  unfold AddEditorImGuiDelegate.
  destruct (ImGuiModuleManager st) as [m |]; [| reflexivity].
  rewrite AddToContext_eq. reflexivity.
Qed.

(** An add fails on a check or, in an editor build, on the null world of the
    world context it found. *)
Lemma AddWorldImGuiDelegate_failure (eng : FEngine) (d : FImGuiDelegate) (st : ModuleState)
    (e : Failure) :
  AddWorldImGuiDelegate eng d st = Fail e -> e = CheckFailed \/ e = NullDereference.
Proof.
  rewrite AddWorldImGuiDelegate_eq. unfold world_failure.
  destruct (ImGuiModuleManager st); [| intros [= <-]; left; reflexivity].
  destruct (world_context_index eng); [discriminate |].
  destruct (if WITH_EDITOR && GEngine eng then current_world_context eng else None);
    intros [= <-]; [right | left]; reflexivity.
Qed.

Lemma AddEditorImGuiDelegate_failure (d : FImGuiDelegate) (st : ModuleState) (e : Failure) :
  AddEditorImGuiDelegate d st = Fail e -> e = CheckFailed.
Proof.
  rewrite AddEditorImGuiDelegate_eq. destruct (ImGuiModuleManager st); congruence.
Qed.

(** What a per-context add that returned has done to the managers: context [i]
    is live and its draw event is the one found (empty when the add created
    the context) followed by the new entry; other contexts, the multi-context
    event and the textures are as before. *)
Definition added_entry (m m' : FImGuiModuleManager) (i : Z) (k : FDelegateHandle)
    (d : FImGuiDelegate) : Prop :=
  GetContextProxy (ContextManager m') i =
    Some {| OnDraw := Event_Add (context_event (ContextManager m) i) k d |} /\
  (GetContextProxy (ContextManager m) i = None ->
   GetContextProxy (ContextManager m') i = Some {| OnDraw := [(k, d)] |}) /\
  (forall j, j <> i ->
     GetContextProxy (ContextManager m') j = GetContextProxy (ContextManager m) j) /\
  OnDrawMultiContext (ContextManager m') = OnDrawMultiContext (ContextManager m) /\
  TextureManager m' = TextureManager m.

Lemma added_to_context_entry (m : FImGuiModuleManager) (i : Z) (d : FImGuiDelegate)
    (st : ModuleState) :
  exists m',
    ImGuiModuleManager (added_to_context m i d st) = Some m' /\
    added_entry m m' i (NextDelegateID st) d.
Proof.
  eexists. split; [reflexivity |]. unfold added_entry, GetContextProxy. simpl.
  split; [apply lookup_insert_eq |]. split.
  - intros Hnone. rewrite lookup_insert_eq. unfold context_event. rewrite Hnone. reflexivity.
  - split; [| split; reflexivity].
    intros j Hj. apply lookup_insert_ne. intros Heq. apply Hj. symmetry. exact Heq.
Qed.

(** C3, as the code has it: a per-context add does not fail with
    [UnknownContext], whatever the state; its failures are of another kind.
    With the module manager in place, [AddEditorImGuiDelegate] returns a
    [Default] handle for the editor index, and so does [AddWorldImGuiDelegate]
    for the index it resolves, whether or not the target context is live.
    Afterwards that context is live: a context that was not live has been
    created by the call and holds the new entry alone; other contexts, the
    multi-context event and the textures are as before. *)
Theorem default_add_creates_missing_context :
  (forall (d : FImGuiDelegate) (st : ModuleState) (e : Failure),
     AddEditorImGuiDelegate d st = Fail e -> e <> UnknownContext) /\
  (forall (eng : FEngine) (d : FImGuiDelegate) (st : ModuleState) (e : Failure),
     AddWorldImGuiDelegate eng d st = Fail e -> e <> UnknownContext) /\
  (forall (d : FImGuiDelegate) (st : ModuleState) (m : FImGuiModuleManager),
     ImGuiModuleManager st = Some m ->
     exists st' m',
       AddEditorImGuiDelegate d st =
         Ok ({| Handle := NextDelegateID st; Category := Default;
                Index := EDITOR_CONTEXT_INDEX |}, st') /\
       ImGuiModuleManager st' = Some m' /\
       added_entry m m' EDITOR_CONTEXT_INDEX (NextDelegateID st) d) /\
  (forall (eng : FEngine) (d : FImGuiDelegate) (st : ModuleState) (m : FImGuiModuleManager)
          (i : Z),
     ImGuiModuleManager st = Some m ->
     world_context_index eng = Some i ->
     exists st' m',
       AddWorldImGuiDelegate eng d st =
         Ok ({| Handle := NextDelegateID st; Category := Default; Index := i |}, st') /\
       ImGuiModuleManager st' = Some m' /\
       added_entry m m' i (NextDelegateID st) d).
Proof.
  split; [| split; [| split]].
  - intros d st e He. apply AddEditorImGuiDelegate_failure in He. subst e. discriminate.
  - intros eng d st e He. apply AddWorldImGuiDelegate_failure in He.
    destruct He as [-> | ->]; discriminate.
  - intros d st m Hm. rewrite AddEditorImGuiDelegate_eq, Hm.
    destruct (added_to_context_entry m EDITOR_CONTEXT_INDEX d st) as (m' & Hm' & Hadd).
    eexists. exists m'. split; [reflexivity |]. split; assumption.
  - intros eng d st m i Hm Hi. rewrite AddWorldImGuiDelegate_eq, Hm, Hi.
    destruct (added_to_context_entry m i d st) as (m' & Hm' & Hadd).
    eexists. exists m'. split; [reflexivity |]. split; assumption.
Qed.

(** ** Draw events along a run of the facade *)

(** Modelled from the spec: "[ReleaseWorldContext(world_ref)]: releases the
    bound slot when a world ends"; the teardown of a context discards all its
    callbacks.  The context manager does this on its own; the facade has no
    call for it. *)
Definition ReleaseContext (cm : FImGuiContextManager) (i : Z) : FImGuiContextManager :=
  {| Contexts := delete i (Contexts cm); OnDrawMultiContext := OnDrawMultiContext cm |}.

Definition release_context (i : Z) (st : ModuleState) : ModuleState :=
  match ImGuiModuleManager st with
  | Some m => set_manager st (Some (set_context_manager m (ReleaseContext (ContextManager m) i)))
  | None => st
  end.

(** Where an entry lives: [None] is the multi-context event, [Some i] the draw
    event of context [i]. *)
Definition handle_loc (h : FImGuiDelegateHandle) : option Z :=
  if decide (Category h = MultiContext) then None else Some (Index h).

Definition event_at (st : ModuleState) (loc : option Z) : option FImGuiDrawEvent :=
  match ImGuiModuleManager st with
  | None => None
  | Some m =>
      match loc with
      | None => Some (OnDrawMultiContext (ContextManager m))
      | Some i => OnDraw <$> Contexts (ContextManager m) !! i
      end
  end.

(** One step of a run: a call of the facade that returns, or the teardown of
    a context by the context manager. *)
Inductive facade_step : ModuleState -> ModuleState -> Prop :=
| step_add_editor d st h st' :
    AddEditorImGuiDelegate d st = Ok (h, st') -> facade_step st st'
| step_add_world eng d st h st' :
    AddWorldImGuiDelegate eng d st = Ok (h, st') -> facade_step st st'
| step_add_multi d st h st' :
    AddMultiContextImGuiDelegate d st = Ok (h, st') -> facade_step st st'
| step_remove h st :
    facade_step st (RemoveImGuiDelegate h st)
| step_release_context i st :
    facade_step st (release_context i st)
| step_register n p u st h st' :
    RegisterTexture n p u st = Ok (h, st') -> facade_step st st'
| step_release_texture h st st' :
    ReleaseTexture h st = Ok st' -> facade_step st st'
| step_set_input b st :
    facade_step st (SetInputMode b st)
| step_set_demo b st :
    facade_step st (SetShowDemo b st)
| step_startup st st' :
    StartupModule st = Ok st' -> facade_step st st'
| step_shutdown st st' :
    ShutdownModule st = Ok st' -> facade_step st st'.

(** The handle [h] was returned by one of the three adds, called with [d] in
    [st] and leaving [st']. *)
Definition issued (st : ModuleState) (d : FImGuiDelegate) (h : FImGuiDelegateHandle)
    (st' : ModuleState) : Prop :=
  AddEditorImGuiDelegate d st = Ok (h, st') \/
  (exists eng, AddWorldImGuiDelegate eng d st = Ok (h, st')) \/
  AddMultiContextImGuiDelegate d st = Ok (h, st').

(** Keys are well formed when no draw event holds a key twice and every key in
    use is below the generator. *)
Definition wf_event (n : FDelegateHandle) (ev : FImGuiDrawEvent) : Prop :=
  NoDup ev.*1 /\ forall k, k ∈ ev.*1 -> (k < n)%N.

Definition wf_keys (st : ModuleState) : Prop :=
  forall loc ev, event_at st loc = Some ev -> wf_event (NextDelegateID st) ev.

(** The key [k] has been generated, and an entry under [k] can only be the
    entry [(k, d)] of the event at [loc]. *)
Definition entry_only_at (k : FDelegateHandle) (d : FImGuiDelegate) (loc : option Z)
    (st : ModuleState) : Prop :=
  (k < NextDelegateID st)%N /\
  forall loc' ev d', event_at st loc' = Some ev -> (k, d') ∈ ev -> loc' = loc /\ d' = d.

(** The key [k] has been generated and no draw event holds it. *)
Definition retired (k : FDelegateHandle) (st : ModuleState) : Prop :=
  (k < NextDelegateID st)%N /\
  forall loc ev, event_at st loc = Some ev -> k ∉ ev.*1.

Lemma event_at_added_to_context (m : FImGuiModuleManager) (i : Z) (d : FImGuiDelegate)
    (st : ModuleState) (loc : option Z) :
  ImGuiModuleManager st = Some m ->
  event_at (added_to_context m i d st) loc =
  if decide (loc = Some i)
  then Some (Event_Add (context_event (ContextManager m) i) (NextDelegateID st) d)
  else event_at st loc.
Proof.
  intros Hm. unfold event_at. rewrite Hm. simpl. destruct loc as [j |].
  - destruct (decide (Some j = Some i)) as [[= ->] | Hne].
    + rewrite lookup_insert_eq. reflexivity.
    + rewrite lookup_insert_ne by congruence. reflexivity.
  - rewrite decide_False by discriminate. reflexivity.
Qed.

Lemma context_event_at (st : ModuleState) (m : FImGuiModuleManager) (i : Z) :
  ImGuiModuleManager st = Some m ->
  event_at st (Some i) = Some (context_event (ContextManager m) i) \/
  (event_at st (Some i) = None /\ context_event (ContextManager m) i = []).
Proof.
  intros Hm. unfold event_at, context_event. rewrite Hm.
  destruct (Contexts (ContextManager m) !! i); simpl; [left | right]; auto.
Qed.

Lemma AddMultiContextImGuiDelegate_inv (d : FImGuiDelegate) (st st' : ModuleState)
    (h : FImGuiDelegateHandle) :
  AddMultiContextImGuiDelegate d st = Ok (h, st') ->
  exists m,
    ImGuiModuleManager st = Some m /\
    h = {| Handle := NextDelegateID st; Category := MultiContext; Index := 0 |} /\
    NextDelegateID st' = N.succ (NextDelegateID st) /\
    (exists m', ImGuiModuleManager st' = Some m' /\ TextureManager m' = TextureManager m) /\
    forall loc,
      event_at st' loc =
      if decide (loc = None)
      then Some (Event_Add (OnDrawMultiContext (ContextManager m)) (NextDelegateID st) d)
      else event_at st loc.
Proof.
  unfold AddMultiContextImGuiDelegate.
  destruct (ImGuiModuleManager st) as [m |] eqn:Hm; [| discriminate].
  simpl. intros [= <- <-]. exists m. split; [reflexivity |]. split; [reflexivity |].
  split; [reflexivity |]. split; [eexists; split; reflexivity |].
  intros [j |]; unfold event_at; rewrite Hm; reflexivity.
Qed.

Lemma add_default_inv (d : FImGuiDelegate) (st st' : ModuleState) (h : FImGuiDelegateHandle) :
  AddEditorImGuiDelegate d st = Ok (h, st') \/
  (exists eng, AddWorldImGuiDelegate eng d st = Ok (h, st')) ->
  exists m i,
    ImGuiModuleManager st = Some m /\
    h = {| Handle := NextDelegateID st; Category := Default; Index := i |} /\
    st' = added_to_context m i d st.
Proof.
  intros [Ha | [eng Ha]].
  - rewrite AddEditorImGuiDelegate_eq in Ha.
    destruct (ImGuiModuleManager st) as [m |]; [| discriminate].
    injection Ha as <- <-. eauto.
  - rewrite AddWorldImGuiDelegate_eq in Ha.
    destruct (ImGuiModuleManager st) as [m |]; [| discriminate].
    destruct (world_context_index eng) as [i |]; [| discriminate].
    injection Ha as <- <-. eauto.
Qed.

(** What [RemoveImGuiDelegate] does to the draw events: the event the handle
    points at loses the entries of the handle's key, every other event is
    untouched. *)
Lemma event_at_RemoveImGuiDelegate (h : FImGuiDelegateHandle) (st : ModuleState)
    (loc : option Z) :
  event_at (RemoveImGuiDelegate h st) loc =
  if decide (loc = handle_loc h)
  then (fun ev => Event_Remove ev (Handle h)) <$> event_at st loc
  else event_at st loc.
Proof.
  destruct (decide (loc = handle_loc h)) as [-> | Hne];
    unfold RemoveImGuiDelegate, handle_loc, event_at in *;
    (destruct (ImGuiModuleManager st) as [m |] eqn:Hm; [| rewrite Hm; reflexivity]);
    destruct (decide (Category h = MultiContext)) as [Hc | Hc]; simpl; try reflexivity.
  - unfold GetContextProxy, Proxy_OnDraw_Remove.
    destruct (Contexts (ContextManager m) !! Index h) as [p |] eqn:Hp; simpl.
    + rewrite lookup_insert_eq. reflexivity.
    + rewrite Hm, Hp. reflexivity.
  - destruct loc as [j |]; [reflexivity | congruence].
  - unfold GetContextProxy, Proxy_OnDraw_Remove.
    destruct (Contexts (ContextManager m) !! Index h) as [p |] eqn:Hp; simpl.
    + destruct loc as [j |]; [| reflexivity].
      rewrite lookup_insert_ne by congruence. reflexivity.
    + rewrite Hm. reflexivity.
Qed.

Lemma RemoveImGuiDelegate_frame (h : FImGuiDelegateHandle) (st : ModuleState) :
  NextDelegateID (RemoveImGuiDelegate h st) = NextDelegateID st /\
  InputEnabled (RemoveImGuiDelegate h st) = InputEnabled st /\
  ShowDemo (RemoveImGuiDelegate h st) = ShowDemo st /\
  (TextureManager <$> ImGuiModuleManager (RemoveImGuiDelegate h st)) =
    (TextureManager <$> ImGuiModuleManager st).
Proof.
  unfold RemoveImGuiDelegate. destruct (ImGuiModuleManager st) as [m |] eqn:Hm.
  - destruct (decide (Category h = MultiContext)).
    + simpl. repeat split.
    + destruct (GetContextProxy (ContextManager m) (Index h)); simpl;
        rewrite ?Hm; repeat split.
  - rewrite Hm. repeat split.
Qed.

Lemma event_at_release_context (i : Z) (st : ModuleState) (loc : option Z) :
  event_at (release_context i st) loc =
  if decide (loc = Some i) then None else event_at st loc.
Proof.
  destruct (decide (loc = Some i)) as [-> | Hne];
    unfold release_context, event_at;
    (destruct (ImGuiModuleManager st) as [m |] eqn:Hm; [| rewrite Hm; reflexivity]); simpl.
  - rewrite lookup_delete_eq. reflexivity.
  - destruct loc as [j |]; [| reflexivity].
    rewrite lookup_delete_ne by congruence. reflexivity.
Qed.

Lemma event_at_texture_manager (st : ModuleState) (m : FImGuiModuleManager)
    (tm : FTextureManager) (loc : option Z) :
  ImGuiModuleManager st = Some m ->
  event_at (set_manager st (Some (set_texture_manager m tm))) loc = event_at st loc.
Proof. intros Hm. unfold event_at. rewrite Hm. reflexivity. Qed.

Lemma RegisterTexture_events (n : FName) (p : UTexture2D) (u : bool) (st st' : ModuleState)
    (h : FImGuiTextureHandle) :
  RegisterTexture n p u st = Ok (h, st') ->
  NextDelegateID st' = NextDelegateID st /\ forall loc, event_at st' loc = event_at st loc.
Proof.
  intros Hr. apply RegisterTexture_inv in Hr as (m & i & tm' & Hm & _ & _ & ->).
  split; [reflexivity |]. intros loc. apply event_at_texture_manager, Hm.
Qed.

Lemma ReleaseTexture_events (h : FImGuiTextureHandle) (st st' : ModuleState) :
  ReleaseTexture h st = Ok st' ->
  NextDelegateID st' = NextDelegateID st /\ forall loc, event_at st' loc = event_at st loc.
Proof.
  intros Hr. destruct (HasValidEntry h st) eqn:Hv.
  - destruct (ReleaseTexture_valid h st Hv) as (m & Hm & Heq).
    rewrite Heq in Hr. injection Hr as <-.
    split; [reflexivity |]. intros loc. apply event_at_texture_manager, Hm.
  - rewrite (ReleaseTexture_invalid h st Hv) in Hr. injection Hr as <-. split; reflexivity.
Qed.

Lemma StartupModule_events (st st' : ModuleState) :
  StartupModule st = Ok st' ->
  NextDelegateID st' = NextDelegateID st /\
  forall loc ev, event_at st' loc = Some ev -> ev = [].
Proof.
  unfold StartupModule.
  destruct (bool_decide (ImGuiModuleManager st = None)); simpl; [| discriminate].
  assert (Hnew : forall e b c s k loc ev,
    event_at {| ImGuiModuleManager := Some NewModuleManager; ImGuiEditor := e;
                InputEnabled := b; ShowDemo := c; NextDelegateID := k;
                ModulesChangedHandlers := s |} loc = Some ev -> ev = []).
  { intros e b c s k [j |] ev; unfold event_at; simpl.
    - rewrite lookup_empty. discriminate.
    - intros [= <-]. reflexivity. }
  destruct WITH_EDITOR.
  - destruct (bool_decide (ImGuiEditor st = None)); simpl; [| discriminate].
    intros [= <-]. split; [reflexivity | apply Hnew].
  - intros [= <-]. split; [reflexivity | apply Hnew].
Qed.

Lemma ShutdownModule_events (st st' : ModuleState) :
  ShutdownModule st = Ok st' ->
  NextDelegateID st' = NextDelegateID st /\ forall loc, event_at st' loc = None.
Proof.
  intros Hs. pose proof (ShutdownModule_clears_manager _ _ Hs) as Hnone. split.
  - revert Hs. unfold ShutdownModule. destruct WITH_EDITOR.
    + destruct (bool_decide (ImGuiEditor st <> None)); simpl; [| discriminate].
      destruct (bool_decide (ImGuiModuleManager st <> None)); simpl; [| discriminate].
      intros [= <-]. reflexivity.
    + simpl. destruct (bool_decide (ImGuiModuleManager st <> None)); simpl; [| discriminate].
      intros [= <-]. reflexivity.
  - intros loc. unfold event_at. rewrite Hnone. reflexivity.
Qed.

Lemma release_context_NextDelegateID (i : Z) (st : ModuleState) :
  NextDelegateID (release_context i st) = NextDelegateID st.
Proof. unfold release_context. destruct (ImGuiModuleManager st); reflexivity. Qed.

(** How one draw event changes in one step, [n] being the generator before
    the step: not at all, by the removal of a key, or by the addition of an
    entry under [n]. *)
Definition event_change (n : FDelegateHandle) (ev ev' : FImGuiDrawEvent) : Prop :=
  ev' = ev \/ (exists k, ev' = Event_Remove ev k) \/ (exists d, ev' = Event_Add ev n d).

(** Every draw event after a step comes from the event at the same place
    before it, or from the empty event of a context just created; an entry is
    only ever added under the generator's key, which then moves on. *)
Lemma facade_step_events (st st' : ModuleState) :
  facade_step st st' ->
  (NextDelegateID st <= NextDelegateID st')%N /\
  forall loc ev',
    event_at st' loc = Some ev' ->
    exists ev,
      (event_at st loc = Some ev \/ ev = []) /\
      event_change (NextDelegateID st) ev ev' /\
      (ev' = ev \/ (exists k, ev' = Event_Remove ev k) \/
       (NextDelegateID st < NextDelegateID st')%N).
Proof.
  assert (Hsame : forall s s' : ModuleState,
    NextDelegateID s' = NextDelegateID s ->
    (forall loc, event_at s' loc = event_at s loc) ->
    (NextDelegateID s <= NextDelegateID s')%N /\
    forall loc ev',
      event_at s' loc = Some ev' ->
      exists ev,
        (event_at s loc = Some ev \/ ev = []) /\
        event_change (NextDelegateID s) ev ev' /\
        (ev' = ev \/ (exists k, ev' = Event_Remove ev k) \/
         (NextDelegateID s < NextDelegateID s')%N)).
  { intros s s' Hn He. split; [lia |]. intros loc ev' Hev. rewrite He in Hev.
    exists ev'. split; [left; exact Hev |]. split; left; reflexivity. }
  assert (Hadd : forall d s s' h,
    AddEditorImGuiDelegate d s = Ok (h, s') \/
    (exists eng, AddWorldImGuiDelegate eng d s = Ok (h, s')) ->
    (NextDelegateID s <= NextDelegateID s')%N /\
    forall loc ev',
      event_at s' loc = Some ev' ->
      exists ev,
        (event_at s loc = Some ev \/ ev = []) /\
        event_change (NextDelegateID s) ev ev' /\
        (ev' = ev \/ (exists k, ev' = Event_Remove ev k) \/
         (NextDelegateID s < NextDelegateID s')%N)).
  { intros d s s' h Ha. apply add_default_inv in Ha as (m & i & Hm & _ & ->).
    split; [simpl; lia |]. intros loc ev' Hev.
    rewrite (event_at_added_to_context m i d s loc Hm) in Hev.
    destruct (decide (loc = Some i)) as [-> | Hne].
    - injection Hev as <-. exists (context_event (ContextManager m) i). split.
      + destruct (context_event_at s m i Hm) as [Hc | [_ Hc]]; [left | right]; exact Hc.
      + split; [right; right; eauto | right; right; simpl; lia].
    - exists ev'. split; [left; exact Hev |]. split; left; reflexivity. }
  intros Hstep. destruct Hstep as
    [d st h st' Ha | eng d st h st' Ha | d st h st' Ha | h st | i st
    | n p u st h st' Hr | h st st' Hr | b st | b st | st st' Hs | st st' Hs].
  - eapply Hadd. left. exact Ha.
  - eapply Hadd. right. eexists. exact Ha.
  - apply AddMultiContextImGuiDelegate_inv in Ha as (m & Hm & _ & Hn & _ & Hev).
    split; [lia |]. intros loc ev' Hloc. rewrite Hev in Hloc.
    destruct (decide (loc = None)) as [-> | Hne].
    + injection Hloc as <-. exists (OnDrawMultiContext (ContextManager m)). split.
      * left. unfold event_at. rewrite Hm. reflexivity.
      * split; [right; right; eauto | right; right; lia].
    + exists ev'. split; [left; exact Hloc |]. split; left; reflexivity.
  - destruct (RemoveImGuiDelegate_frame h st) as (Hn & _).
    split; [lia |]. intros loc ev' Hloc. rewrite event_at_RemoveImGuiDelegate in Hloc.
    destruct (decide (loc = handle_loc h)) as [-> | Hne].
    + destruct (event_at st (handle_loc h)) as [ev |]; [| discriminate].
      injection Hloc as <-. exists ev. split; [left; reflexivity |].
      split; right; left; eauto.
    + exists ev'. split; [left; exact Hloc |]. split; left; reflexivity.
  - split; [rewrite release_context_NextDelegateID; lia |].
    intros loc ev' Hloc. rewrite event_at_release_context in Hloc.
    destruct (decide (loc = Some i)); [discriminate |].
    exists ev'. split; [left; exact Hloc |]. split; left; reflexivity.
  - destruct (RegisterTexture_events _ _ _ _ _ _ Hr) as [Hn He]. apply Hsame; assumption.
  - destruct (ReleaseTexture_events _ _ _ Hr) as [Hn He]. apply Hsame; assumption.
  - apply Hsame; reflexivity.
  - apply Hsame; reflexivity.
  - destruct (StartupModule_events _ _ Hs) as [Hn He]. split; [lia |].
    intros loc ev' Hloc. apply He in Hloc as ->. exists []. split; [right; reflexivity |].
    split; left; reflexivity.
  - destruct (ShutdownModule_events _ _ Hs) as [Hn He]. split; [lia |].
    intros loc ev' Hloc. rewrite He in Hloc. discriminate.
Qed.

Lemma Event_Remove_elem (ev : FImGuiDrawEvent) (k : FDelegateHandle)
    (e : FDelegateHandle * FImGuiDelegate) :
  e ∈ Event_Remove ev k <-> e.1 <> k /\ e ∈ ev.
Proof. unfold Event_Remove. rewrite list_elem_of_filter. reflexivity. Qed.

Lemma Event_Remove_keys_NoDup (ev : FImGuiDrawEvent) (k : FDelegateHandle) :
  NoDup ev.*1 -> NoDup (Event_Remove ev k).*1.
Proof.
  unfold Event_Remove. induction ev as [| e ev IH]; [intros _; apply NoDup_nil_2 |].
  rewrite fmap_cons, NoDup_cons. intros [Hnotin Hnd].
  rewrite filter_cons. destruct (decide (e.1 <> k)); [| apply IH, Hnd].
  rewrite fmap_cons. apply NoDup_cons. split; [| apply IH, Hnd].
  intros Hin. apply Hnotin. apply list_elem_of_fmap in Hin as (e' & He' & Hin).
  apply list_elem_of_filter in Hin as [_ Hin].
  apply list_elem_of_fmap. exists e'. split; assumption.
Qed.

(** An entry under a key already generated is not new. *)
Lemma event_change_member (n : FDelegateHandle) (ev ev' : FImGuiDrawEvent)
    (k : FDelegateHandle) (d : FImGuiDelegate) :
  event_change n ev ev' -> (k < n)%N -> (k, d) ∈ ev' -> (k, d) ∈ ev.
Proof.
  intros [-> | [[k0 ->] | [d0 ->]]] Hk Hin.
  - exact Hin.
  - apply Event_Remove_elem in Hin as [_ Hin]. exact Hin.
  - unfold Event_Add in Hin. apply elem_of_app in Hin as [Hin | Hin]; [exact Hin |].
    apply list_elem_of_singleton in Hin. injection Hin as -> _. lia.
Qed.

Lemma wf_event_change (n n' : FDelegateHandle) (ev ev' : FImGuiDrawEvent) :
  wf_event n ev ->
  (n <= n')%N ->
  event_change n ev ev' ->
  (ev' = ev \/ (exists k, ev' = Event_Remove ev k) \/ (n < n')%N) ->
  wf_event n' ev'.
Proof.
  intros [Hnd Hlt] Hle Hch Hnew. split.
  - destruct Hch as [-> | [[k0 ->] | [d0 ->]]].
    + exact Hnd.
    + apply Event_Remove_keys_NoDup, Hnd.
    + unfold Event_Add. rewrite fmap_app. apply NoDup_app. split; [exact Hnd |].
      split; [| apply NoDup_singleton].
      intros x Hx Hx'. apply list_elem_of_singleton in Hx'. simpl in Hx'. subst x.
      specialize (Hlt _ Hx). lia.
  - intros k Hk. apply list_elem_of_fmap in Hk as ([k' d] & -> & Hin). simpl.
    destruct (decide (k' < n)%N) as [Hkn | Hkn].
    + lia.
    + destruct Hch as [-> | [[k0 ->] | [d0 ->]]].
      * exfalso. apply Hkn, Hlt. apply list_elem_of_fmap. exists (k', d). split; auto.
      * exfalso. apply Hkn, Hlt. apply Event_Remove_elem in Hin as [_ Hin].
        apply list_elem_of_fmap. exists (k', d). split; auto.
      * unfold Event_Add in Hin. apply elem_of_app in Hin as [Hin | Hin].
        -- exfalso. apply Hkn, Hlt. apply list_elem_of_fmap. exists (k', d). split; auto.
        -- apply list_elem_of_singleton in Hin. injection Hin as -> _.
           destruct Hnew as [Heq | [[k1 Heq] | Hn]]; [| | exact Hn].
           ++ exfalso. assert (Hm : (n, d0) ∈ ev).
              { rewrite <- Heq. unfold Event_Add. apply elem_of_app. right.
                apply list_elem_of_singleton. reflexivity. }
              apply Hkn, Hlt. apply list_elem_of_fmap. exists (n, d0). split; auto.
           ++ exfalso. assert (Hm : (n, d0) ∈ Event_Remove ev k1).
              { rewrite <- Heq. unfold Event_Add. apply elem_of_app. right.
                apply list_elem_of_singleton. reflexivity. }
              apply Event_Remove_elem in Hm as [_ Hm].
              apply Hkn, Hlt. apply list_elem_of_fmap. exists (n, d0). split; auto.
Qed.

Lemma wf_event_nil (n : FDelegateHandle) : wf_event n [].
Proof.
  split; [apply NoDup_nil_2 |]. intros k Hk. simpl in Hk. apply elem_of_nil in Hk. contradiction.
Qed.

(** Well-formed keys are an invariant of every run. *)
Lemma wf_keys_step (st st' : ModuleState) :
  wf_keys st -> facade_step st st' -> wf_keys st'.
Proof.
  intros Hwf Hstep. destruct (facade_step_events _ _ Hstep) as [Hle Hev].
  intros loc ev' Hloc. destruct (Hev _ _ Hloc) as (ev & Hfrom & Hch & Hnew).
  eapply wf_event_change; [| exact Hle | exact Hch | exact Hnew].
  destruct Hfrom as [Hfrom | ->]; [eapply Hwf; exact Hfrom | apply wf_event_nil].
Qed.

Lemma wf_keys_run (st st' : ModuleState) :
  wf_keys st -> rtc facade_step st st' -> wf_keys st'.
Proof. intros Hwf Hrun. induction Hrun; [exact Hwf | eauto using wf_keys_step]. Qed.

Lemma wf_keys_startup (st st' : ModuleState) :
  StartupModule st = Ok st' -> wf_keys st'.
Proof.
  intros Hs loc ev Hloc. destruct (StartupModule_events _ _ Hs) as [_ He].
  apply He in Hloc as ->. apply wf_event_nil.
Qed.

Lemma entry_only_at_step (k : FDelegateHandle) (d : FImGuiDelegate) (loc : option Z)
    (st st' : ModuleState) :
  entry_only_at k d loc st -> facade_step st st' -> entry_only_at k d loc st'.
Proof.
  intros [Hk Honly] Hstep. destruct (facade_step_events _ _ Hstep) as [Hle Hev].
  split; [lia |]. intros loc' ev' d' Hloc Hin.
  destruct (Hev _ _ Hloc) as (ev & Hfrom & Hch & _).
  pose proof (event_change_member _ _ _ _ _ Hch Hk Hin) as Hin0.
  destruct Hfrom as [Hfrom | ->]; [eapply Honly; eassumption |].
  apply elem_of_nil in Hin0. contradiction.
Qed.

Lemma entry_only_at_run (k : FDelegateHandle) (d : FImGuiDelegate) (loc : option Z)
    (st st' : ModuleState) :
  entry_only_at k d loc st -> rtc facade_step st st' -> entry_only_at k d loc st'.
Proof. intros Hi Hrun. induction Hrun; [exact Hi | eauto using entry_only_at_step]. Qed.

Lemma retired_step (k : FDelegateHandle) (st st' : ModuleState) :
  retired k st -> facade_step st st' -> retired k st'.
Proof.
  intros [Hk Hno] Hstep. destruct (facade_step_events _ _ Hstep) as [Hle Hev].
  split; [lia |]. intros loc ev' Hloc Hin.
  apply list_elem_of_fmap in Hin as ([k' d'] & Hk' & Hin). simpl in Hk'. subst k'.
  destruct (Hev _ _ Hloc) as (ev & Hfrom & Hch & _).
  pose proof (event_change_member _ _ _ _ _ Hch Hk Hin) as Hin0.
  destruct Hfrom as [Hfrom | ->].
  - apply (Hno _ _ Hfrom). apply list_elem_of_fmap. exists (k, d'). split; auto.
  - apply elem_of_nil in Hin0. contradiction.
Qed.

Lemma retired_run (k : FDelegateHandle) (st st' : ModuleState) :
  retired k st -> rtc facade_step st st' -> retired k st'.
Proof. intros Hi Hrun. induction Hrun; [exact Hi | eauto using retired_step]. Qed.

(** ** Handles and the entries they were issued for *)

(** An add in a state with well-formed keys puts the new entry last in the
    event the handle points at, under a key no other entry has. *)
Lemma issued_entry (st st' : ModuleState) (d : FImGuiDelegate) (h : FImGuiDelegateHandle) :
  wf_keys st ->
  issued st d h st' ->
  entry_only_at (Handle h) d (handle_loc h) st' /\
  exists ev, event_at st' (handle_loc h) = Some (Event_Add ev (Handle h) d).
Proof.
  intros Hwf Hi.
  assert (Hfresh : forall loc ev d', event_at st loc = Some ev ->
                     (NextDelegateID st, d') ∈ ev -> False).
  { intros loc ev d' Hloc Hin. destruct (Hwf _ _ Hloc) as [_ Hlt].
    assert (Hk : (NextDelegateID st < NextDelegateID st)%N); [| lia].
    apply Hlt. apply list_elem_of_fmap. exists (NextDelegateID st, d'). split; auto. }
  assert (Hlast : forall ev d', (NextDelegateID st, d') ∈ Event_Add ev (NextDelegateID st) d ->
                    (NextDelegateID st, d') ∈ ev \/ d' = d).
  { intros ev d' Hin. unfold Event_Add in Hin. apply elem_of_app in Hin as [Hin | Hin].
    - left. exact Hin.
    - right. apply list_elem_of_singleton in Hin. congruence. }
  destruct Hi as [Ha | [Ha | Ha]].
  1, 2: assert (Hd : AddEditorImGuiDelegate d st = Ok (h, st') \/
                     (exists eng, AddWorldImGuiDelegate eng d st = Ok (h, st')))
          by (first [left; exact Ha | right; exact Ha]);
        apply add_default_inv in Hd as (m & i & Hm & -> & ->);
        unfold handle_loc; simpl;
        (split; [split; [simpl; lia |] |]);
        [ intros loc' ev d' Hloc Hin;
          rewrite (event_at_added_to_context m i d st loc' Hm) in Hloc;
          destruct (decide (loc' = Some i)) as [-> | Hne];
          [ injection Hloc as <-; split; [reflexivity |];
            destruct (Hlast _ _ Hin) as [Hold | Hd']; [| exact Hd'];
            exfalso;
            destruct (context_event_at st m i Hm) as [Hc | [_ Hc]];
            [ exact (Hfresh _ _ _ Hc Hold)
            | rewrite Hc in Hold; apply elem_of_nil in Hold; exact Hold ]
          | exfalso; exact (Hfresh _ _ _ Hloc Hin) ]
        | exists (context_event (ContextManager m) i);
          rewrite (event_at_added_to_context m i d st (Some i) Hm);
          rewrite decide_True by reflexivity; reflexivity ].
  apply AddMultiContextImGuiDelegate_inv in Ha as (m & Hm & -> & Hn & _ & Hev).
  unfold handle_loc. simpl. split; [split; [lia |] |].
  - intros loc' ev d' Hloc Hin. rewrite Hev in Hloc.
    destruct (decide (loc' = None)) as [-> | Hne].
    + injection Hloc as <-. split; [reflexivity |].
      destruct (Hlast _ _ Hin) as [Hold | Hd']; [| exact Hd'].
      exfalso. eapply (Hfresh None); [| exact Hold]. unfold event_at. rewrite Hm. reflexivity.
    + exfalso. exact (Hfresh _ _ _ Hloc Hin).
  - exists (OnDrawMultiContext (ContextManager m)). rewrite Hev. reflexivity.
Qed.

(** The teardown of the context that holds an entry retires the entry's key. *)
Lemma release_context_retires (k : FDelegateHandle) (d : FImGuiDelegate) (i : Z)
    (st : ModuleState) :
  entry_only_at k d (Some i) st -> retired k (release_context i st).
Proof.
  intros [Hk Honly]. split; [rewrite release_context_NextDelegateID; exact Hk |].
  intros loc ev Hloc Hin. rewrite event_at_release_context in Hloc.
  destruct (decide (loc = Some i)) as [| Hne]; [discriminate |].
  apply list_elem_of_fmap in Hin as ([k' d'] & Hk' & Hin). simpl in Hk'. subst k'.
  destruct (Honly _ _ _ Hloc Hin) as [Heq _]. contradiction.
Qed.

Lemma set_manager_same (st : ModuleState) (m : FImGuiModuleManager) :
  ImGuiModuleManager st = Some m -> set_manager st (Some m) = st.
Proof. intros Hm. destruct st. simpl in *. subst. reflexivity. Qed.

(** Removing a key that the targeted event does not hold changes nothing. *)
Lemma RemoveImGuiDelegate_absent (h : FImGuiDelegateHandle) (st : ModuleState) :
  (forall ev, event_at st (handle_loc h) = Some ev -> Handle h ∉ ev.*1) ->
  RemoveImGuiDelegate h st = st.
Proof.
  unfold RemoveImGuiDelegate, handle_loc, event_at, GetContextProxy.
  destruct (ImGuiModuleManager st) as [m |] eqn:Hm; [| reflexivity].
  destruct (decide (Category h = MultiContext)) as [Hc | Hc]; intros Habs.
  - rewrite Event_Remove_absent by (apply Habs; reflexivity).
    rewrite <- (set_manager_same st m Hm) at 2. f_equal. f_equal.
    destruct m as [[cs multi] tm]. reflexivity.
  - destruct (Contexts (ContextManager m) !! Index h) as [p |] eqn:Hp; [| reflexivity].
    unfold Proxy_OnDraw_Remove. rewrite Hp.
    rewrite Event_Remove_absent by (apply Habs; reflexivity).
    rewrite <- (set_manager_same st m Hm) at 2. f_equal. f_equal.
    destruct m as [[cs multi] tm]. destruct p as [ev]. simpl in *.
    unfold set_context_manager. simpl. rewrite insert_id by exact Hp. reflexivity.
Qed.

Lemma RemoveImGuiDelegate_retired (h : FImGuiDelegateHandle) (st : ModuleState) :
  retired (Handle h) st -> RemoveImGuiDelegate h st = st.
Proof. intros [_ Hno]. apply RemoveImGuiDelegate_absent. intros ev Hev. eapply Hno, Hev. Qed.

(** C4: removal through a [Default] handle whose context is gone is a no-op.
    First, in any state in which no live context has the handle's index,
    [RemoveImGuiDelegate] returns the state unchanged.  Second, along any run
    from well-formed keys in which the handle was issued by a per-context add,
    its context was later torn down, and the run went on (the index may have
    been taken by a new context with new entries), [RemoveImGuiDelegate]
    again returns the state unchanged: no entry of any context is removed. *)
Theorem RemoveImGuiDelegate_stale_default_handle :
  (forall (h : FImGuiDelegateHandle) (st : ModuleState),
     Category h = Default ->
     (forall m, ImGuiModuleManager st = Some m ->
                GetContextProxy (ContextManager m) (Index h) = None) ->
     RemoveImGuiDelegate h st = st) /\
  (forall (st0 st1 st2 st3 : ModuleState) (d : FImGuiDelegate) (h : FImGuiDelegateHandle),
     wf_keys st0 ->
     AddEditorImGuiDelegate d st0 = Ok (h, st1) \/
       (exists eng, AddWorldImGuiDelegate eng d st0 = Ok (h, st1)) ->
     rtc facade_step st1 st2 ->
     rtc facade_step (release_context (Index h) st2) st3 ->
     RemoveImGuiDelegate h st3 = st3).
Proof.
  split.
  - intros h st Hc Hgone. apply RemoveImGuiDelegate_absent.
    unfold handle_loc, event_at. rewrite Hc. simpl.
    destruct (ImGuiModuleManager st) as [m |]; [| discriminate].
    specialize (Hgone m eq_refl). unfold GetContextProxy in Hgone. rewrite Hgone.
    discriminate.
  - intros st0 st1 st2 st3 d h Hwf Ha Hrun1 Hrun2.
    assert (Hi : issued st0 d h st1) by (destruct Ha as [Ha | Ha]; [left | right; left]; exact Ha).
    destruct (issued_entry _ _ _ _ Hwf Hi) as [Honly _].
    apply add_default_inv in Ha as (m & i & _ & Hh & _).
    assert (Hloc : handle_loc h = Some (Index h)) by (rewrite Hh; reflexivity).
    rewrite Hloc in Honly.
    apply RemoveImGuiDelegate_retired.
    eapply retired_run; [| exact Hrun2].
    eapply release_context_retires, entry_only_at_run; [exact Honly | exact Hrun1].
Qed.

Lemma event_split_at_key (n : FDelegateHandle) (ev : FImGuiDrawEvent) (k : FDelegateHandle) :
  wf_event n ev ->
  k ∈ ev.*1 ->
  exists d l1 l2, ev = l1 ++ (k, d) :: l2 /\ k ∉ (l1 ++ l2).*1.
Proof.
  intros [Hnd _] Hin. apply list_elem_of_fmap in Hin as ([k' d] & Hk & Hin).
  simpl in Hk. subst k'. apply list_elem_of_split in Hin as (l1 & l2 & ->).
  exists d, l1, l2. split; [reflexivity |].
  rewrite fmap_app, fmap_cons in Hnd. simpl in Hnd.
  apply NoDup_app in Hnd as (_ & Hdisj & Hnd2). apply NoDup_cons in Hnd2 as [Hnot2 _].
  rewrite fmap_app. intros Hin. apply elem_of_app in Hin as [Hin | Hin].
  - apply (Hdisj _ Hin). apply elem_of_cons. left. reflexivity.
  - exact (Hnot2 Hin).
Qed.

(** C6: let [h] be the handle an add returned for the callback [d], and let
    the run go on from there.  Then [RemoveImGuiDelegate h] leaves every draw
    event other than the one [h] points at untouched (for a [MultiContext]
    handle: every context's event; for a [Default] handle: the multi-context
    event and the events of all other contexts); and if the event [h] points
    at still holds the key of [h], that event is [l1 ++ (key, d) :: l2] with
    the key nowhere else, and after the removal it is [l1 ++ l2].  Right after
    the add the entry is the last of its event. *)
Theorem RemoveImGuiDelegate_removes_exactly_its_entry
    (st0 st1 st2 : ModuleState) (d : FImGuiDelegate) (h : FImGuiDelegateHandle) :
  wf_keys st0 ->
  issued st0 d h st1 ->
  rtc facade_step st1 st2 ->
  (exists ev, event_at st1 (handle_loc h) = Some (Event_Add ev (Handle h) d)) /\
  (forall loc, loc <> handle_loc h ->
     event_at (RemoveImGuiDelegate h st2) loc = event_at st2 loc) /\
  (Category h = MultiContext ->
   forall i, event_at (RemoveImGuiDelegate h st2) (Some i) = event_at st2 (Some i)) /\
  (forall ev, event_at st2 (handle_loc h) = Some ev ->
     Handle h ∈ ev.*1 ->
     exists l1 l2,
       ev = l1 ++ (Handle h, d) :: l2 /\
       (Handle h ∉ (l1 ++ l2).*1) /\
       event_at (RemoveImGuiDelegate h st2) (handle_loc h) = Some (l1 ++ l2)).
Proof.
  intros Hwf Hi Hrun.
  destruct (issued_entry _ _ _ _ Hwf Hi) as [Honly Hlast].
  assert (Hwf1 : wf_keys st1).
  { apply (wf_keys_step st0); [exact Hwf |].
    destruct Hi as [Ha | [[eng Ha] | Ha]];
      [eapply step_add_editor | eapply step_add_world | eapply step_add_multi]; exact Ha. }
  pose proof (wf_keys_run _ _ Hwf1 Hrun) as Hwf2.
  pose proof (entry_only_at_run _ _ _ _ _ Honly Hrun) as [_ Honly2].
  split; [exact Hlast |]. split; [| split].
  - intros loc Hne. rewrite event_at_RemoveImGuiDelegate.
    rewrite decide_False by exact Hne. reflexivity.
  - intros Hc i. rewrite event_at_RemoveImGuiDelegate.
    rewrite decide_False; [reflexivity |]. unfold handle_loc. rewrite Hc. discriminate.
  - intros ev Hev Hin.
    destruct (event_split_at_key _ _ _ (Hwf2 _ _ Hev) Hin) as (d' & l1 & l2 & -> & Hnot).
    assert (Hd : d' = d).
    { eapply (Honly2 _ _ d' Hev). apply elem_of_app. right. apply elem_of_cons. left.
      reflexivity. }
    subst d'. exists l1, l2. split; [reflexivity |]. split; [exact Hnot |].
    rewrite event_at_RemoveImGuiDelegate, decide_True by reflexivity.
    rewrite Hev. simpl. rewrite Event_Remove_exact by exact Hnot. reflexivity.
Qed.

(** * Further properties of the facade *)

(** ** Module life cycle *)

Lemma StartupModule_inv (st st1 : ModuleState) :
  StartupModule st = Ok st1 ->
  ImGuiModuleManager st = None /\
  (WITH_EDITOR = true -> ImGuiEditor st = None) /\
  st1 = {| ImGuiModuleManager := Some NewModuleManager;
           ImGuiEditor := if WITH_EDITOR then Some tt else ImGuiEditor st;
           InputEnabled := InputEnabled st;
           ShowDemo := ShowDemo st;
           NextDelegateID := NextDelegateID st;
           ModulesChangedHandlers := ModulesChangedHandlers st |}.
Proof.
  unfold StartupModule. destruct (ImGuiModuleManager st) as [m |] eqn:Hm; [discriminate |].
  simpl. destruct WITH_EDITOR.
  - destruct (ImGuiEditor st) as [e |] eqn:He; simpl; [discriminate |].
    intros [= <-]. split; [reflexivity |]. split; reflexivity.
  - intros [= <-]. split; [reflexivity |]. split; [discriminate | reflexivity].
Qed.

Lemma ShutdownModule_inv (st st2 : ModuleState) :
  ShutdownModule st = Ok st2 ->
  ImGuiModuleManager st <> None /\
  (WITH_EDITOR = true -> ImGuiEditor st <> None) /\
  st2 = {| ImGuiModuleManager := None;
           ImGuiEditor := if WITH_EDITOR then None else ImGuiEditor st;
           InputEnabled := InputEnabled st;
           ShowDemo := ShowDemo st;
           NextDelegateID := NextDelegateID st;
           ModulesChangedHandlers :=
             if WITH_EDITOR then S (ModulesChangedHandlers st)
             else ModulesChangedHandlers st |}.
Proof.
  unfold ShutdownModule. destruct WITH_EDITOR.
  - destruct (ImGuiEditor st) as [e |] eqn:He; simpl; [| discriminate].
    destruct (ImGuiModuleManager st) as [m |] eqn:Hm; simpl; [| discriminate].
    intros [= <-]. split; [discriminate |]. split; [discriminate | reflexivity].
  - simpl. destruct (ImGuiModuleManager st) as [m |] eqn:Hm; simpl; [| discriminate].
    intros [= <-]. split; [discriminate |]. split; [discriminate | reflexivity].
Qed.

(** X1: startup and shutdown undo each other.  After a [StartupModule] that
    returned, [ShutdownModule] returns too and leaves both pointers as they
    were before the startup (null), the two flags and the key generator
    untouched; in a standalone build the state is exactly the one before the
    startup, in an editor build one more handler has been added to
    [OnModulesChanged].  The module can then be started again. *)
Theorem startup_shutdown_round_trip (st st1 : ModuleState) :
  StartupModule st = Ok st1 ->
  exists st2,
    ShutdownModule st1 = Ok st2 /\
    ImGuiModuleManager st2 = None /\
    ImGuiEditor st2 = ImGuiEditor st /\
    InputEnabled st2 = InputEnabled st /\
    ShowDemo st2 = ShowDemo st /\
    NextDelegateID st2 = NextDelegateID st /\
    ModulesChangedHandlers st2 =
      (if WITH_EDITOR then S (ModulesChangedHandlers st) else ModulesChangedHandlers st) /\
    (WITH_EDITOR = false -> st2 = st) /\
    exists st3, StartupModule st2 = Ok st3.
Proof.
  intros Hs. apply StartupModule_inv in Hs as (Hm & He & ->).
  unfold ShutdownModule, StartupModule. destruct st as [m e i s n c]. simpl in *. subst m.
  destruct WITH_EDITOR; simpl.
  - rewrite (He eq_refl). eexists. split; [reflexivity |]. simpl.
    do 6 (split; [reflexivity |]). split; [intros Hf; discriminate Hf |].
    eexists. reflexivity.
  - eexists. split; [reflexivity |]. simpl.
    do 6 (split; [reflexivity |]). split; [intros _; reflexivity |].
    eexists. reflexivity.
Qed.

(** X2: the life-cycle checks.  [StartupModule] fails its check when a manager
    already exists, so a second startup in a row fails; [ShutdownModule] fails
    its check when there is no manager, so a shutdown before any startup and a
    second shutdown in a row fail.  A failed check is the only failure of
    either. *)
Theorem life_cycle_checks :
  (forall st, ImGuiModuleManager st <> None -> StartupModule st = Fail CheckFailed) /\
  (forall st st1, StartupModule st = Ok st1 -> StartupModule st1 = Fail CheckFailed) /\
  (forall st, ImGuiModuleManager st = None -> ShutdownModule st = Fail CheckFailed) /\
  (forall st st1, ShutdownModule st = Ok st1 -> ShutdownModule st1 = Fail CheckFailed) /\
  (forall st e, StartupModule st = Fail e -> e = CheckFailed) /\
  (forall st e, ShutdownModule st = Fail e -> e = CheckFailed).
Proof.
  assert (Hstart : forall st, ImGuiModuleManager st <> None ->
                              StartupModule st = Fail CheckFailed).
  { intros st Hm. unfold StartupModule.
    destruct (ImGuiModuleManager st); [reflexivity | contradiction]. }
  assert (Hstop : forall st, ImGuiModuleManager st = None ->
                             ShutdownModule st = Fail CheckFailed).
  { intros st Hm. unfold ShutdownModule. destruct WITH_EDITOR.
    - destruct (ImGuiEditor st); simpl; [rewrite Hm |]; reflexivity.
    - simpl. rewrite Hm. reflexivity. }
  split; [exact Hstart |]. split; [| split; [exact Hstop |]; split; [| split]].
  - intros st st1 Hs. apply Hstart. apply StartupModule_inv in Hs as (_ & _ & ->).
    discriminate.
  - intros st st1 Hs. apply Hstop. apply ShutdownModule_inv in Hs as (_ & _ & ->).
    reflexivity.
  - intros st e. unfold StartupModule.
    destruct (ImGuiModuleManager st); simpl; [congruence |].
    destruct WITH_EDITOR; [| discriminate].
    destruct (ImGuiEditor st); simpl; [congruence | discriminate].
  - intros st e. unfold ShutdownModule. destruct WITH_EDITOR.
    + destruct (ImGuiEditor st); simpl; [| congruence].
      destruct (ImGuiModuleManager st); simpl; [discriminate | congruence].
    + simpl. destruct (ImGuiModuleManager st); simpl; [discriminate | congruence].
Qed.

(** X3: what is left after shutdown.  Once [ShutdownModule] has returned,
    every texture handle has lost its entry and [ReleaseTexture] with any
    handle returns the state unchanged (the validity test stops before the
    null manager); the three adds fail their check; [FindTextureHandle] and
    [RegisterTexture], which do not test the pointer, dereference the null
    manager. *)
Theorem after_shutdown (st st' : ModuleState) :
  ShutdownModule st = Ok st' ->
  (forall h, HasValidEntry h st' = false) /\
  (forall h, ReleaseTexture h st' = Ok st') /\
  (forall d, AddEditorImGuiDelegate d st' = Fail CheckFailed) /\
  (forall eng d, AddWorldImGuiDelegate eng d st' = Fail CheckFailed) /\
  (forall d, AddMultiContextImGuiDelegate d st' = Fail CheckFailed) /\
  (forall n, FindTextureHandle n st' = Fail NullDereference) /\
  (forall n t u, RegisterTexture n t u st' = Fail NullDereference).
Proof.
  intros Hs. apply ShutdownModule_clears_manager in Hs.
  assert (Hv : forall h, HasValidEntry h st' = false).
  { intros h. unfold HasValidEntry. rewrite Hs. apply andb_false_r. }
  split; [exact Hv |]. split; [intros h; apply ReleaseTexture_invalid, Hv |].
  unfold AddEditorImGuiDelegate, AddWorldImGuiDelegate, AddMultiContextImGuiDelegate,
    FindTextureHandle, RegisterTexture. rewrite Hs. repeat split.
Qed.

(** ** Failure of the per-context add *)

#[local] Set Warnings "-clear-no-such-hyp".

(** X4: when and how [AddWorldImGuiDelegate] fails.  It fails a check exactly
    when there is no module manager or, in an editor build, when [GEngine] is
    null or neither the game viewport nor the dedicated server has a world
    context.  It dereferences a null world exactly when, in an editor build
    with the manager and [GEngine] in place, the world context it settles on
    (the viewport's; the dedicated server's only when the viewport has none)
    has no world; a viewport context without a world is not replaced by the
    dedicated server's.  There is no other failure.  When it returns, the
    handle has category [Default] and the generator's key; in a standalone
    build the engine is not consulted and the index is the standalone one; in
    an editor build the index is that of the world of the context settled
    on. *)
Theorem AddWorldImGuiDelegate_failure_cases
    (eng : FEngine) (d : FImGuiDelegate) (st : ModuleState) :
  (AddWorldImGuiDelegate eng d st = Fail CheckFailed <->
   ImGuiModuleManager st = None \/
   (WITH_EDITOR = true /\
    (GEngine eng = false \/
     (GameViewportWorldContext eng = None /\ DedicatedServerWorldContext eng = None)))) /\
  (AddWorldImGuiDelegate eng d st = Fail NullDereference <->
   is_Some (ImGuiModuleManager st) /\
   WITH_EDITOR = true /\
   GEngine eng = true /\
   exists wc,
     (GameViewportWorldContext eng = Some wc \/
      (GameViewportWorldContext eng = None /\ DedicatedServerWorldContext eng = Some wc)) /\
     World wc = None) /\
  (forall e, AddWorldImGuiDelegate eng d st = Fail e ->
             e = CheckFailed \/ e = NullDereference) /\
  (forall h st', AddWorldImGuiDelegate eng d st = Ok (h, st') ->
     Category h = Default /\
     Handle h = NextDelegateID st /\
     (WITH_EDITOR = false -> Index h = STANDALONE_GAME_CONTEXT_INDEX) /\
     (WITH_EDITOR = true ->
      exists wc w,
        (GameViewportWorldContext eng = Some wc \/
         (GameViewportWorldContext eng = None /\ DedicatedServerWorldContext eng = Some wc)) /\
        World wc = Some w /\
        Index h = GetWorldContextIndex w)).
Proof.
  unfold AddWorldImGuiDelegate, is_Some.
  destruct (ImGuiModuleManager st) as [m |], WITH_EDITOR, (GEngine eng),
    (GameViewportWorldContext eng) as [[[vw |]] |],
    (DedicatedServerWorldContext eng) as [[[sw |]] |];
    simpl; rewrite ?AddToContext_eq; naive_solver.
Qed.

#[local] Set Warnings "clear-no-such-hyp".

(** ** Adding and removing draw delegates *)

(** The state with the key generator moved on by one. *)
Definition key_consumed (st : ModuleState) : ModuleState := (GenerateNewID st).2.

Lemma Event_Remove_added (ev : FImGuiDrawEvent) (k : FDelegateHandle) (d : FImGuiDelegate) :
  k ∉ ev.*1 -> Event_Remove (Event_Add ev k d) k = ev.
Proof.
  intros Hk. unfold Event_Add. rewrite (Event_Remove_exact ev [] k d).
  - apply app_nil_r.
  - rewrite app_nil_r. exact Hk.
Qed.

Lemma wf_keys_fresh (st : ModuleState) (loc : option Z) (ev : FImGuiDrawEvent) :
  wf_keys st -> event_at st loc = Some ev -> NextDelegateID st ∉ ev.*1.
Proof.
  intros Hwf Hev Hin. destruct (Hwf _ _ Hev) as [_ Hlt]. specialize (Hlt _ Hin). lia.
Qed.

(** X5: adding a multi-context delegate and removing it through the returned
    handle is a round trip: the state is the one before the add, with only
    the key generator moved on. *)
Theorem add_remove_multi_context_round_trip
    (d : FImGuiDelegate) (st st1 : ModuleState) (h : FImGuiDelegateHandle) :
  wf_keys st ->
  AddMultiContextImGuiDelegate d st = Ok (h, st1) ->
  RemoveImGuiDelegate h st1 = key_consumed st.
Proof.
  intros Hwf Ha. unfold AddMultiContextImGuiDelegate in Ha.
  destruct (ImGuiModuleManager st) as [m |] eqn:Hm; [| discriminate].
  simpl in Ha. injection Ha as <- <-.
  assert (Hfresh : NextDelegateID st ∉ (OnDrawMultiContext (ContextManager m)).*1).
  { apply (wf_keys_fresh st None); [exact Hwf |]. unfold event_at. rewrite Hm. reflexivity. }
  unfold RemoveImGuiDelegate, key_consumed. simpl.
  rewrite (Event_Remove_added _ _ _ Hfresh).
  destruct st as [m0 e i s n c]. simpl in *. subst m0.
  destruct m as [[cs multi] tm]. reflexivity.
Qed.

(** X6: adding a per-context delegate and removing it through the returned
    handle.  If the context was live before the add, the state is the one
    before the add with only the key generator moved on.  If the add created
    the context, the removal does not tear it down: the context stays live
    with an empty draw event, and nothing else differs from the state before
    the add. *)
Theorem add_remove_default_round_trip
    (d : FImGuiDelegate) (st st1 : ModuleState) (h : FImGuiDelegateHandle)
    (m : FImGuiModuleManager) :
  wf_keys st ->
  ImGuiModuleManager st = Some m ->
  AddEditorImGuiDelegate d st = Ok (h, st1) \/
    (exists eng, AddWorldImGuiDelegate eng d st = Ok (h, st1)) ->
  RemoveImGuiDelegate h st1 =
    key_consumed
      (set_manager st
         (Some (set_context_manager m (GetOrCreateContext (ContextManager m) (Index h))))) /\
  (forall p, GetContextProxy (ContextManager m) (Index h) = Some p ->
     RemoveImGuiDelegate h st1 = key_consumed st) /\
  (GetContextProxy (ContextManager m) (Index h) = None ->
   event_at (RemoveImGuiDelegate h st1) (Some (Index h)) = Some [] /\
   forall loc, loc <> Some (Index h) ->
     event_at (RemoveImGuiDelegate h st1) loc = event_at st loc).
Proof.
  intros Hwf Hm Ha. apply add_default_inv in Ha as (m0 & i & Hm0 & -> & ->).
  rewrite Hm in Hm0. injection Hm0 as <-. simpl.
  assert (Hfresh : NextDelegateID st ∉ (context_event (ContextManager m) i).*1).
  { destruct (context_event_at st m i Hm) as [Hc | [_ Hc]].
    - apply (wf_keys_fresh st (Some i)); assumption.
    - rewrite Hc. apply not_elem_of_nil. }
  assert (Hrem : RemoveImGuiDelegate
                   {| Handle := NextDelegateID st; Category := Default; Index := i |}
                   (added_to_context m i d st) =
                 key_consumed
                   (set_manager st
                      (Some (set_context_manager m (GetOrCreateContext (ContextManager m) i))))).
  { unfold RemoveImGuiDelegate, added_to_context, key_consumed, GetContextProxy,
      Proxy_OnDraw_Remove. simpl.
    rewrite lookup_insert_eq. unfold set_manager, set_context_manager, GenerateNewID. simpl.
    rewrite insert_insert_eq.
    rewrite (Event_Remove_added _ _ _ Hfresh). clear Hfresh.
    unfold GetOrCreateContext, context_event.
    destruct st as [m0 e j s n c]. simpl in *. subst m0.
    destruct m as [[cs multi] tm]. simpl in *.
    destruct (cs !! i) as [[ev] |] eqn:Hp; simpl.
    - rewrite insert_id by exact Hp. reflexivity.
    - reflexivity. }
  split; [exact Hrem |]. split.
  - intros p Hp. rewrite Hrem. unfold GetOrCreateContext, GetContextProxy in *. rewrite Hp.
    destruct st as [m0 e j s n c]. simpl in *. subst m0.
    destruct m as [[cs multi] tm]. reflexivity.
  - intros Hp. rewrite Hrem. unfold GetOrCreateContext, GetContextProxy in *. rewrite Hp.
    unfold event_at. rewrite Hm. simpl. split.
    + rewrite lookup_insert_eq. reflexivity.
    + intros [j |] Hne; [| reflexivity].
      rewrite lookup_insert_ne by congruence. reflexivity.
Qed.

(** Two states are equal when they agree on every draw event, on the texture
    manager and on the rest of the statics. *)
Lemma ModuleState_ext (st st' : ModuleState) :
  (forall loc, event_at st loc = event_at st' loc) ->
  TextureManager <$> ImGuiModuleManager st = TextureManager <$> ImGuiModuleManager st' ->
  ImGuiEditor st = ImGuiEditor st' ->
  InputEnabled st = InputEnabled st' ->
  ShowDemo st = ShowDemo st' ->
  NextDelegateID st = NextDelegateID st' ->
  ModulesChangedHandlers st = ModulesChangedHandlers st' ->
  st = st'.
Proof.
  destruct st as [m e i s n c], st' as [m' e' i' s' n' c']. simpl.
  intros Hev Htm -> -> -> -> ->. f_equal.
  destruct m as [[[cs multi] tm] |], m' as [[[cs' multi'] tm'] |]; simpl in *.
  - injection Htm as ->.
    pose proof (Hev None) as Hmulti. unfold event_at in Hmulti. simpl in Hmulti.
    injection Hmulti as ->. do 3 f_equal.
    apply map_eq. intros j. specialize (Hev (Some j)). unfold event_at in Hev. simpl in Hev.
    destruct (cs !! j) as [[ev] |], (cs' !! j) as [[ev'] |]; simpl in Hev; congruence.
  - discriminate.
  - discriminate.
  - reflexivity.
Qed.

Lemma RemoveImGuiDelegate_statics (h : FImGuiDelegateHandle) (st : ModuleState) :
  ImGuiEditor (RemoveImGuiDelegate h st) = ImGuiEditor st /\
  ModulesChangedHandlers (RemoveImGuiDelegate h st) = ModulesChangedHandlers st.
Proof.
  unfold RemoveImGuiDelegate. destruct (ImGuiModuleManager st) as [m |].
  - destruct (decide (Category h = MultiContext)); [split; reflexivity |].
    destruct (GetContextProxy (ContextManager m) (Index h)); split; reflexivity.
  - split; reflexivity.
Qed.

Lemma Event_Remove_comm (ev : FImGuiDrawEvent) (k1 k2 : FDelegateHandle) :
  Event_Remove (Event_Remove ev k1) k2 = Event_Remove (Event_Remove ev k2) k1.
Proof.
  unfold Event_Remove. induction ev as [| e ev IH]; [reflexivity |].
  rewrite !filter_cons.
  destruct (decide (e.1 <> k1)) as [H1 | H1], (decide (e.1 <> k2)) as [H2 | H2];
    rewrite ?filter_cons, ?decide_True, ?decide_False by assumption; congruence.
Qed.

(** X7: removals commute.  Removing through two handles gives the same state
    in either order, whatever the handles are (same or different category,
    context or key, issued or not). *)
Theorem RemoveImGuiDelegate_comm (h1 h2 : FImGuiDelegateHandle) (st : ModuleState) :
  RemoveImGuiDelegate h1 (RemoveImGuiDelegate h2 st) =
  RemoveImGuiDelegate h2 (RemoveImGuiDelegate h1 st).
Proof.
  apply ModuleState_ext.
  - intros loc. rewrite !event_at_RemoveImGuiDelegate.
    destruct (decide (loc = handle_loc h1)), (decide (loc = handle_loc h2));
      try reflexivity.
    destruct (event_at st loc) as [ev |]; [| reflexivity]. simpl.
    rewrite Event_Remove_comm. reflexivity.
  - destruct (RemoveImGuiDelegate_frame h1 (RemoveImGuiDelegate h2 st)) as (_ & _ & _ & ->).
    destruct (RemoveImGuiDelegate_frame h2 (RemoveImGuiDelegate h1 st)) as (_ & _ & _ & ->).
    destruct (RemoveImGuiDelegate_frame h1 st) as (_ & _ & _ & ->).
    destruct (RemoveImGuiDelegate_frame h2 st) as (_ & _ & _ & ->). reflexivity.
  - rewrite !(proj1 (RemoveImGuiDelegate_statics _ _)). reflexivity.
  - destruct (RemoveImGuiDelegate_frame h1 (RemoveImGuiDelegate h2 st)) as (_ & -> & _).
    destruct (RemoveImGuiDelegate_frame h2 (RemoveImGuiDelegate h1 st)) as (_ & -> & _).
    destruct (RemoveImGuiDelegate_frame h1 st) as (_ & -> & _).
    destruct (RemoveImGuiDelegate_frame h2 st) as (_ & -> & _). reflexivity.
  - destruct (RemoveImGuiDelegate_frame h1 (RemoveImGuiDelegate h2 st)) as (_ & _ & -> & _).
    destruct (RemoveImGuiDelegate_frame h2 (RemoveImGuiDelegate h1 st)) as (_ & _ & -> & _).
    destruct (RemoveImGuiDelegate_frame h1 st) as (_ & _ & -> & _).
    destruct (RemoveImGuiDelegate_frame h2 st) as (_ & _ & -> & _). reflexivity.
  - destruct (RemoveImGuiDelegate_frame h1 (RemoveImGuiDelegate h2 st)) as (-> & _).
    destruct (RemoveImGuiDelegate_frame h2 (RemoveImGuiDelegate h1 st)) as (-> & _).
    destruct (RemoveImGuiDelegate_frame h1 st) as (-> & _).
    destruct (RemoveImGuiDelegate_frame h2 st) as (-> & _). reflexivity.
  - rewrite !(proj2 (RemoveImGuiDelegate_statics _ _)). reflexivity.
Qed.

(** X10: removal keeps the order and the contexts.  [RemoveImGuiDelegate]
    creates no draw event and drops none: a place has an event afterwards
    exactly when it had one before, and removing the last callback of a
    context leaves the context live.  The event afterwards is a subsequence of
    the event before, in the same order, and holds every entry whose key is
    not the handle's. *)
Theorem RemoveImGuiDelegate_keeps_order
    (h : FImGuiDelegateHandle) (st : ModuleState) (loc : option Z) :
  (event_at (RemoveImGuiDelegate h st) loc = None <-> event_at st loc = None) /\
  (forall ev', event_at (RemoveImGuiDelegate h st) loc = Some ev' ->
     exists ev,
       event_at st loc = Some ev /\
       sublist ev' ev /\
       forall e, e ∈ ev -> e.1 <> Handle h -> e ∈ ev').
Proof.
  rewrite event_at_RemoveImGuiDelegate.
  destruct (decide (loc = handle_loc h)) as [-> | Hne].
  - destruct (event_at st (handle_loc h)) as [ev |]; simpl.
    + split; [split; discriminate |]. intros ev' [= <-]. exists ev.
      split; [reflexivity |]. split.
      * unfold Event_Remove. apply sublist_filter.
      * intros e He Hk. apply Event_Remove_elem. split; assumption.
    + split; [split; reflexivity |]. discriminate.
  - split; [reflexivity |]. intros ev' Hev. exists ev'. split; [exact Hev |].
    split; [reflexivity | auto].
Qed.

(** ** Draw delegates and textures do not interfere *)

Lemma textures_only (st st' : ModuleState) (h : FImGuiTextureHandle) (n : FName) :
  TextureManager <$> ImGuiModuleManager st' = TextureManager <$> ImGuiModuleManager st ->
  HasValidEntry h st' = HasValidEntry h st /\
  FindTextureHandle n st' = FindTextureHandle n st.
Proof.
  unfold HasValidEntry, FindTextureHandle.
  destruct (ImGuiModuleManager st) as [m |], (ImGuiModuleManager st') as [m' |];
    simpl; try discriminate.
  - intros [= ->]. split; reflexivity.
  - intros _. split; reflexivity.
Qed.

(** X11: the draw-delegate calls leave the textures alone.  After any of the
    three adds and after [RemoveImGuiDelegate], every texture handle is valid
    exactly if it was before and [FindTextureHandle] answers as before. *)
Theorem delegate_calls_keep_textures :
  (forall (hd : FImGuiDelegateHandle) (st : ModuleState) (h : FImGuiTextureHandle) (n : FName),
     HasValidEntry h (RemoveImGuiDelegate hd st) = HasValidEntry h st /\
     FindTextureHandle n (RemoveImGuiDelegate hd st) = FindTextureHandle n st) /\
  (forall (d : FImGuiDelegate) (st st' : ModuleState) (hd : FImGuiDelegateHandle)
          (h : FImGuiTextureHandle) (n : FName),
     issued st d hd st' ->
     HasValidEntry h st' = HasValidEntry h st /\
     FindTextureHandle n st' = FindTextureHandle n st).
Proof.
  split.
  - intros hd st h n. apply textures_only.
    destruct (RemoveImGuiDelegate_frame hd st) as (_ & _ & _ & Htm). exact Htm.
  - intros d st st' hd h n Hi. apply textures_only.
    destruct Hi as [Ha | [Ha | Ha]].
    + assert (Hd : AddEditorImGuiDelegate d st = Ok (hd, st') \/
                   (exists eng, AddWorldImGuiDelegate eng d st = Ok (hd, st')))
        by (left; exact Ha).
      apply add_default_inv in Hd as (m & i & Hm & _ & ->). rewrite Hm. reflexivity.
    + assert (Hd : AddEditorImGuiDelegate d st = Ok (hd, st') \/
                   (exists eng, AddWorldImGuiDelegate eng d st = Ok (hd, st')))
        by (right; exact Ha).
      apply add_default_inv in Hd as (m & i & Hm & _ & ->). rewrite Hm. reflexivity.
    + apply AddMultiContextImGuiDelegate_inv in Ha as (m & Hm & _ & _ & (m' & Hm' & Htm) & _).
      rewrite Hm, Hm'. simpl. rewrite Htm. reflexivity.
Qed.

(** X12: the texture calls leave the draw delegates alone.  After a
    [RegisterTexture] or a [ReleaseTexture] that returned, every draw event,
    the key generator and both flags are as before, so a removal afterwards
    finds the same entries. *)
Theorem texture_calls_keep_draw_events (st st' : ModuleState) :
  (exists n t u h, RegisterTexture n t u st = Ok (h, st')) \/
  (exists h, ReleaseTexture h st = Ok st') ->
  (forall loc, event_at st' loc = event_at st loc) /\
  NextDelegateID st' = NextDelegateID st /\
  IsInputMode st' = IsInputMode st /\
  IsShowingDemo st' = IsShowingDemo st /\
  forall hd loc,
    event_at (RemoveImGuiDelegate hd st') loc = event_at (RemoveImGuiDelegate hd st) loc.
Proof.
  intros Hop.
  assert (Hev : (forall loc, event_at st' loc = event_at st loc) /\
                NextDelegateID st' = NextDelegateID st /\
                InputEnabled st' = InputEnabled st /\ ShowDemo st' = ShowDemo st).
  { destruct Hop as [(n & t & u & h & Hr) | (h & Hr)].
    - destruct (RegisterTexture_events _ _ _ _ _ _ Hr) as [Hn He].
      apply RegisterTexture_inv in Hr as (m & i & tm' & _ & _ & _ & ->). auto.
    - destruct (ReleaseTexture_events _ _ _ Hr) as [Hn He].
      destruct (HasValidEntry h st) eqn:Hv.
      + destruct (ReleaseTexture_valid h st Hv) as (m & _ & Heq).
        rewrite Heq in Hr. injection Hr as <-. auto.
      + rewrite (ReleaseTexture_invalid h st Hv) in Hr. injection Hr as <-. auto. }
  destruct Hev as (He & Hn & Hi & Hs).
  split; [exact He |]. split; [exact Hn |].
  split; [unfold IsInputMode; rewrite Hi; reflexivity |].
  split; [unfold IsShowingDemo; rewrite Hs; reflexivity |].
  intros hd loc. rewrite !event_at_RemoveImGuiDelegate, He. reflexivity.
Qed.

(** ** Flags *)

(** [SwitchImGuiInputMode], the body of the console command
    "ImGui.SwitchInputMode". *)
Definition SwitchImGuiInputMode (st : ModuleState) : ModuleState := ToggleInputMode st.

(** X13: the flags are read with [> 0] and written as 1 or 0.  A console
    variable that holds another integer (the console can set any) reads as
    [true] when positive and [false] otherwise, and the first toggle or set
    normalises it: two toggles, or two runs of the console command, give the
    state back exactly if the variable held 0 or 1, and in every case they
    give the state in which the flag has been set to the value it read as.
    The two flags are independent, and writing a flag changes nothing else. *)
Theorem flags_normalise (st : ModuleState) :
  (ToggleInputMode (ToggleInputMode st) = st <-> (InputEnabled st = 0 \/ InputEnabled st = 1)%Z) /\
  (ToggleShowDemo (ToggleShowDemo st) = st <-> (ShowDemo st = 0 \/ ShowDemo st = 1)%Z) /\
  ToggleInputMode (ToggleInputMode st) = SetInputMode (IsInputMode st) st /\
  ToggleShowDemo (ToggleShowDemo st) = SetShowDemo (IsShowingDemo st) st /\
  SwitchImGuiInputMode (SwitchImGuiInputMode st) = SetInputMode (IsInputMode st) st /\
  (forall b b', SetInputMode b (SetInputMode b' st) = SetInputMode b st) /\
  (forall b b', SetInputMode b (SetShowDemo b' st) = SetShowDemo b' (SetInputMode b st)) /\
  (forall b, IsShowingDemo (SetInputMode b st) = IsShowingDemo st /\
             IsInputMode (SetShowDemo b st) = IsInputMode st).
Proof.
  destruct st as [m e i s n c].
  unfold SwitchImGuiInputMode, ToggleInputMode, ToggleShowDemo, SetInputMode, SetShowDemo,
    IsInputMode, IsShowingDemo, set_InputEnabled, set_ShowDemo. simpl.
  split; [| split; [| split; [| split; [| split]]]].
  - destruct (0 <? i)%Z eqn:E; simpl; split.
    + intros [= Hi]. right. symmetry. exact Hi.
    + intros [Hi | Hi]; subst i; [discriminate | reflexivity].
    + intros [= Hi]. left. symmetry. exact Hi.
    + intros [Hi | Hi]; subst i; [reflexivity | discriminate].
  - destruct (0 <? s)%Z eqn:E; simpl; split.
    + intros [= Hs]. right. symmetry. exact Hs.
    + intros [Hs | Hs]; subst s; [discriminate | reflexivity].
    + intros [= Hs]. left. symmetry. exact Hs.
    + intros [Hs | Hs]; subst s; [reflexivity | discriminate].
  - destruct (0 <? i)%Z; reflexivity.
  - destruct (0 <? s)%Z; reflexivity.
  - destruct (0 <? i)%Z; reflexivity.
  - repeat split.
Qed.

(** ** Registration and release of textures *)

(** X14: registration.  In a well-formed registry, the handle [RegisterTexture]
    returns carries the given name and has a valid entry; [FindTextureHandle]
    for that name then returns a valid handle of that name; and every handle
    that was valid before the registration is still valid. *)
Theorem RegisterTexture_round_trip
    (n : FName) (t : UTexture2D) (u : bool) (st st' : ModuleState)
    (m : FImGuiModuleManager) (h : FImGuiTextureHandle) :
  ImGuiModuleManager st = Some m ->
  wf_textures (TextureManager m) ->
  RegisterTexture n t u st = Ok (h, st') ->
  Name h = n /\
  HasValidEntry h st' = true /\
  (exists h', FindTextureHandle n st' = Ok h' /\ Name h' = n /\ HasValidEntry h' st' = true) /\
  (forall g, HasValidEntry g st = true -> HasValidEntry g st' = true).
Proof.
  intros Hm Hwf Hr. apply RegisterTexture_inv in Hr as (m0 & i & tm' & Hm0 & Hc & -> & ->).
  rewrite Hm in Hm0. injection Hm0 as <-.
  destruct (CreateTextureResources_spec _ _ _ _ _ _ Hwf Hc) as (_ & Hother & Hi).
  assert (Hlive : exists q, slot_at tm' i = Some (n, q)).
  { destruct Hi as [[-> Hq] | [_ Hq]]; eauto. }
  destruct Hlive as [q Hq].
  split; [reflexivity |]. split; [| split].
  - apply HasValidEntry_true_iff. simpl. eauto.
  - destruct (FindTextureIndex_spec tm' n) as [[_ Hno] | [Hf [q' Hq']]].
    + exfalso. exact (Hno _ _ Hq).
    + exists {| Name := n; TextureId := ToImTextureID (FindTextureIndex tm' n) |}.
      split; [| split; [reflexivity |]].
      * unfold FindTextureHandle. simpl. apply Z.eqb_neq in Hf. rewrite Hf. reflexivity.
      * apply HasValidEntry_true_iff. simpl. eauto.
  - intros g Hg. apply HasValidEntry_true_iff in Hg as (m1 & p & Hm1 & Hs).
    rewrite Hm in Hm1. injection Hm1 as <-.
    apply HasValidEntry_true_iff. simpl. eexists. exists p. split; [reflexivity |]. simpl.
    destruct (decide (ToTextureIndex (TextureId g) = i)) as [Heq | Hne].
    + rewrite Heq in *. destruct Hi as [[-> _] | [Hfree _]]; [exact Hs | congruence].
    + rewrite Hother by exact Hne. exact Hs.
Qed.

(** X15: release.  Releasing a valid handle takes the entry from every handle
    of the same slot and from no other: a handle of another slot is valid
    afterwards exactly if it was before. *)
Theorem ReleaseTexture_frame (h : FImGuiTextureHandle) (st st' : ModuleState) :
  HasValidEntry h st = true ->
  ReleaseTexture h st = Ok st' ->
  (forall g, ToTextureIndex (TextureId g) = ToTextureIndex (TextureId h) ->
             HasValidEntry g st' = false) /\
  (forall g, ToTextureIndex (TextureId g) <> ToTextureIndex (TextureId h) ->
             HasValidEntry g st' = HasValidEntry g st).
Proof.
  intros Hv Hr. destruct (ReleaseTexture_valid h st Hv) as (m & Hm & Heq).
  rewrite Heq in Hr. injection Hr as <-.
  apply HasValidEntry_true_iff in Hv as (m0 & p & Hm0 & Hs).
  rewrite Hm in Hm0. injection Hm0 as <-.
  destruct (slot_at_in_range _ _ _ Hs) as [Hi _].
  split.
  - intros g Hg. eapply HasValidEntry_false_free; [reflexivity |].
    simpl. rewrite Hg. apply slot_at_cleared.
  - intros g Hg. unfold HasValidEntry. rewrite Hm. simpl. unfold GetTextureName.
    rewrite (slot_at_insert_ne (TextureManager m) _ _ None _ Hi Hg). reflexivity.
Qed.

(** ** Runs from startup *)

(** X16: handles that were never issued.  Along any run that begins with a
    [StartupModule], no draw event holds a key twice and every key in use is
    below the generator; so [RemoveImGuiDelegate] with a handle whose key the
    generator has not reached yet, whatever its category and index, returns
    the state unchanged. *)
Theorem never_issued_handle_removes_nothing (st st1 st2 : ModuleState) :
  StartupModule st = Ok st1 ->
  rtc facade_step st1 st2 ->
  wf_keys st2 /\
  forall h, (NextDelegateID st2 <= Handle h)%N -> RemoveImGuiDelegate h st2 = st2.
Proof.
  intros Hs Hrun.
  assert (Hwf : wf_keys st2) by (eapply wf_keys_run; [eapply wf_keys_startup, Hs | exact Hrun]).
  split; [exact Hwf |]. intros h Hh. apply RemoveImGuiDelegate_absent.
  intros ev Hev Hin. destruct (Hwf _ _ Hev) as [_ Hlt]. specialize (Hlt _ Hin). lia.
Qed.

(** X17: a module just started has nothing registered.  Right after a
    [StartupModule] that returned, whatever happened in an earlier life of the
    module, no texture handle has a valid entry, [FindTextureHandle] returns
    the null handle for every name, every draw event is empty, and
    [RemoveImGuiDelegate] with any handle returns the state unchanged. *)
Theorem fresh_module_is_empty (st st1 : ModuleState) :
  StartupModule st = Ok st1 ->
  (forall h, HasValidEntry h st1 = false) /\
  (forall n, FindTextureHandle n st1 = Ok NullTextureHandle) /\
  (forall loc ev, event_at st1 loc = Some ev -> ev = []) /\
  (forall hd, RemoveImGuiDelegate hd st1 = st1).
Proof.
  intros Hs. destruct (StartupModule_events _ _ Hs) as [_ Hev].
  pose proof (StartupModule_inv _ _ Hs) as (_ & _ & Hst1).
  split; [| split; [| split]].
  - intros h. eapply HasValidEntry_false_free; [rewrite Hst1; reflexivity |].
    simpl. unfold slot_at. simpl. destruct (0 <=? _)%Z; reflexivity.
  - intros n. rewrite Hst1. reflexivity.
  - exact Hev.
  - intros hd. apply RemoveImGuiDelegate_absent. intros ev Hloc.
    apply Hev in Hloc as ->. apply not_elem_of_nil.
Qed.

End ImGuiModule.

(** * The facade at work

    A standalone (non-editor) build and an editor build over concrete engine
    types: names are strings, textures, callbacks and worlds are numbered. *)


Definition DemoState : Type := @ModuleState string nat nat.
Definition DemoManager : Type := @FImGuiModuleManager string nat nat.

Definition demo_standalone_index : Z := (-1)%Z.
Definition demo_editor_index : Z := 0%Z.
Definition demo_world_index (w : nat) : Z := Z.of_nat (S w).

(** No world is known to the engine; a standalone build does not ask. *)
Definition demo_engine : @FEngine nat :=
  {| GEngine := true; GameViewportWorldContext := None; DedicatedServerWorldContext := None |}.

(** The editor's engine, with world 6 in the game viewport. *)
Definition demo_editor_engine : @FEngine nat :=
  {| GEngine := true; GameViewportWorldContext := Some {| World := Some 6%nat |};
     DedicatedServerWorldContext := None |}.

(** Before [StartupModule]. *)
Definition demo_unloaded : DemoState :=
  {| ImGuiModuleManager := None; ImGuiEditor := None; InputEnabled := 0; ShowDemo := 0;
     NextDelegateID := 1%N; ModulesChangedHandlers := 0 |}.

(** After [StartupModule] of a standalone build: no context, no texture. *)
Definition demo_started : DemoState :=
  {| ImGuiModuleManager := Some NewModuleManager; ImGuiEditor := None; InputEnabled := 0;
     ShowDemo := 0; NextDelegateID := 1%N; ModulesChangedHandlers := 0 |}.

(** A started module whose texture registry is [tm]. *)
Definition demo_with_textures (tm : @FTextureManager string nat) : DemoState :=
  {| ImGuiModuleManager :=
       Some {| ContextManager := {| Contexts := ∅; OnDrawMultiContext := [] |};
               TextureManager := tm |};
     ImGuiEditor := None; InputEnabled := 0; ShowDemo := 0;
     NextDelegateID := 1%N; ModulesChangedHandlers := 0 |}.

Definition demo_handle (n : string) (i : Z) : @FImGuiTextureHandle string :=
  {| Name := n; TextureId := ToImTextureID i |}.

Example demo_startup : StartupModule false demo_unloaded = Ok demo_started.
Proof. reflexivity. Qed.

Lemma demo_started_wf_keys : wf_keys demo_started.
Proof. exact (wf_keys_startup false demo_unloaded demo_started eq_refl). Qed.

(** Registering "A", releasing it and registering "B" reuses slot 0. *)
Example demo_reuse_run :
  RegisterTexture "A" 1%nat true demo_started
    = Ok (demo_handle "A" 0, demo_with_textures {| slots := [Some ("A", 1%nat)]; free_list := [] |}) /\
  ReleaseTexture (demo_handle "A" 0)
      (demo_with_textures {| slots := [Some ("A", 1%nat)]; free_list := [] |})
    = Ok (demo_with_textures {| slots := [None]; free_list := [0%Z] |}) /\
  RegisterTexture "B" 2%nat true (demo_with_textures {| slots := [None]; free_list := [0%Z] |})
    = Ok (demo_handle "B" 0, demo_with_textures {| slots := [Some ("B", 2%nat)]; free_list := [] |}).
Proof. repeat split. Qed.

Lemma stale_handle_after_slot_reuse_witness :
  exists m3,
    ImGuiModuleManager (demo_with_textures {| slots := [Some ("B", 2%nat)]; free_list := [] |})
      = Some m3 /\
    HasValidEntry (demo_handle "A" 0)
      (demo_with_textures {| slots := [Some ("A", 1%nat)]; free_list := [] |}) = true /\
    HasValidEntry (demo_handle "A" 0)
      (demo_with_textures {| slots := [Some ("B", 2%nat)]; free_list := [] |}) = false /\
    Resolve (TextureManager m3) (ToTextureIndex (TextureId (demo_handle "A" 0))) "A" = None /\
    HasValidEntry (demo_handle "B" 0)
      (demo_with_textures {| slots := [Some ("B", 2%nat)]; free_list := [] |}) = true /\
    (ToTextureIndex (TextureId (demo_handle "B" 0)) =
       ToTextureIndex (TextureId (demo_handle "A" 0)) ->
     Resolve (TextureManager m3) (ToTextureIndex (TextureId (demo_handle "A" 0))) "B"
       = Some 2%nat).
Proof.
  apply (proj2 stale_handle_after_slot_reuse demo_started
           (demo_with_textures {| slots := [Some ("A", 1%nat)]; free_list := [] |})
           (demo_with_textures {| slots := [None]; free_list := [0%Z] |})
           (demo_with_textures {| slots := [Some ("B", 2%nat)]; free_list := [] |})
           NewModuleManager "A" "B" 1%nat 2%nat true true
           (demo_handle "A" 0) (demo_handle "B" 0)).
  - reflexivity.
  - apply wf_textures_new.
  - discriminate.
  - reflexivity.
  - reflexivity.
  - reflexivity.
Defined.

(** A registry with "A" in slot 0, slot 1 free and "B" in slot 2. *)
Definition demo_registry : DemoState :=
  demo_with_textures
    {| slots := [Some ("A", 1%nat); None; Some ("B", 2%nat)]; free_list := [1%Z] |}.

Example demo_HasValidEntry :
  HasValidEntry (demo_handle "B" 2) demo_registry = true /\
  HasValidEntry (demo_handle "A" 2) demo_registry = false /\
  HasValidEntry (demo_handle "A" 1) demo_registry = false /\
  HasValidEntry (demo_handle "A" 7) demo_registry = false /\
  HasValidEntry (demo_handle "A" 0) demo_unloaded = false.
Proof. repeat split. Qed.

Lemma FindTextureHandle_spec_witness :
  ((forall i p, slot_at
       {| slots := [Some ("A", 1%nat); None; Some ("B", 2%nat)]; free_list := [1%Z] |} i
       <> Some ("B", p)) ->
   FindTextureHandle "None" "B" demo_registry = Ok (NullTextureHandle "None") /\
   HasValidEntry (NullTextureHandle "None") demo_registry = false) /\
  ((exists i p, slot_at
       {| slots := [Some ("A", 1%nat); None; Some ("B", 2%nat)]; free_list := [1%Z] |} i
       = Some ("B", p)) ->
   exists j q,
     FindTextureHandle "None" "B" demo_registry = Ok (demo_handle "B" j) /\
     slot_at {| slots := [Some ("A", 1%nat); None; Some ("B", 2%nat)]; free_list := [1%Z] |} j
       = Some ("B", q) /\
     HasValidEntry (demo_handle "B" j) demo_registry = true).
Proof.
  exact (FindTextureHandle_spec "None" "B" demo_registry _ eq_refl).
Defined.

Example demo_FindTextureHandle :
  FindTextureHandle "None" "B" demo_registry = Ok (demo_handle "B" 2) /\
  FindTextureHandle "None" "C" demo_registry = Ok (NullTextureHandle "None") /\
  FindTextureHandle "None" "B" demo_unloaded = Fail NullDereference.
Proof. repeat split. Qed.

Lemma INDEX_NONE_handle_is_invalid_witness :
  HasValidEntry (NullTextureHandle "None") demo_registry = false /\
  ReleaseTexture (NullTextureHandle "None") demo_registry = Ok demo_registry.
Proof.
  exact (INDEX_NONE_handle_is_invalid (NullTextureHandle "None") demo_registry eq_refl).
Defined.

Lemma remove_and_release_idempotent_witness :
  HasValidEntry (demo_handle "A" 1) demo_registry = false /\
  ReleaseTexture (demo_handle "A" 1) demo_registry = Ok demo_registry.
Proof.
  split; [reflexivity |].
  exact (proj2 (proj2 remove_and_release_idempotent) (demo_handle "A" 1) demo_registry eq_refl).
Defined.

Example demo_release_twice :
  ReleaseTexture (demo_handle "B" 2) demo_registry
    = Ok (demo_with_textures
            {| slots := [Some ("A", 1%nat); None; None]; free_list := [2%Z; 1%Z] |}) /\
  ReleaseTexture (demo_handle "B" 2)
      (demo_with_textures
         {| slots := [Some ("A", 1%nat); None; None]; free_list := [2%Z; 1%Z] |})
    = Ok (demo_with_textures
            {| slots := [Some ("A", 1%nat); None; None]; free_list := [2%Z; 1%Z] |}).
Proof. repeat split. Qed.

Lemma RemoveImGuiDelegate_after_shutdown_witness :
  ImGuiModuleManager demo_unloaded = None /\
  RemoveImGuiDelegate {| Handle := 1%N; Category := Default; Index := (-1)%Z |} demo_unloaded
    = demo_unloaded.
Proof.
  exact (RemoveImGuiDelegate_after_shutdown false
           {| Handle := 1%N; Category := Default; Index := (-1)%Z |}
           demo_started demo_unloaded eq_refl).
Defined.

(** ** Adding to a context that is not live *)

(** C3 fails on the code: in a module just started no context is live, yet
    [AddWorldImGuiDelegate] returns a handle, does not fail with
    [UnknownContext], and leaves the context created with the new entry; in a
    standalone build and in an editor build alike. *)
Lemma AddWorldImGuiDelegate_unknown_context_counterexample :
  GetContextProxy (ContextManager (@NewModuleManager string nat nat)) demo_standalone_index = None /\
  (exists st' m',
     AddWorldImGuiDelegate false demo_standalone_index demo_world_index demo_engine 10%nat
       demo_started
       = Ok ({| Handle := 1%N; Category := Default; Index := demo_standalone_index |}, st') /\
     AddWorldImGuiDelegate false demo_standalone_index demo_world_index demo_engine 10%nat
       demo_started
       <> Fail UnknownContext /\
     ImGuiModuleManager st' = Some m' /\
     GetContextProxy (ContextManager m') demo_standalone_index
       = Some {| OnDraw := [(1%N, 10%nat)] |}) /\
  GetContextProxy (ContextManager (@NewModuleManager string nat nat)) (demo_world_index 6) = None /\
  (exists st' m',
     AddWorldImGuiDelegate true demo_standalone_index demo_world_index demo_editor_engine 10%nat
       demo_started
       = Ok ({| Handle := 1%N; Category := Default; Index := demo_world_index 6 |}, st') /\
     ImGuiModuleManager st' = Some m' /\
     GetContextProxy (ContextManager m') (demo_world_index 6)
       = Some {| OnDraw := [(1%N, 10%nat)] |}).
Proof.
  split; [reflexivity |]. split.
  - eexists. eexists. split; [reflexivity |]. split; [discriminate |].
    split; reflexivity.
  - split; [reflexivity |]. eexists. eexists. split; [reflexivity |]. split; reflexivity.
Qed.

Lemma default_add_creates_missing_context_witness :
  GetContextProxy (ContextManager (@NewModuleManager string nat nat)) demo_standalone_index
    = None /\
  exists (st' : DemoState) (m' : DemoManager),
    AddWorldImGuiDelegate false demo_standalone_index demo_world_index demo_engine 10%nat
      demo_started
      = Ok ({| Handle := NextDelegateID demo_started; Category := Default;
               Index := demo_standalone_index |}, st') /\
    ImGuiModuleManager st' = Some m' /\
    added_entry NewModuleManager m' demo_standalone_index (NextDelegateID demo_started) 10%nat.
Proof.
  split; [reflexivity |].
  exact (proj2 (proj2 (proj2 (default_add_creates_missing_context false demo_standalone_index
                                demo_editor_index demo_world_index)))
           demo_engine 10%nat demo_started NewModuleManager demo_standalone_index
           eq_refl eq_refl).
Defined.

(** ** Draw delegates of a standalone build *)

Definition demo_step : DemoState -> DemoState -> Prop :=
  facade_step false demo_standalone_index demo_editor_index demo_world_index.

(** The state [AddWorldImGuiDelegate] leaves ([st] itself if it fails). *)
Definition demo_add_world (d : nat) (st : DemoState) : DemoState :=
  match AddWorldImGuiDelegate false demo_standalone_index demo_world_index demo_engine d st with
  | Ok (_, st') => st'
  | Fail _ => st
  end.

(** The state [AddMultiContextImGuiDelegate] leaves. *)
Definition demo_add_multi (d : nat) (st : DemoState) : DemoState :=
  match AddMultiContextImGuiDelegate d st with
  | Ok (_, st') => st'
  | Fail _ => st
  end.

Definition demo_default_handle (k : N) : FImGuiDelegateHandle :=
  {| Handle := k; Category := Default; Index := demo_standalone_index |}.

(** Callbacks 10, 20 and 30 on the standalone context, 40 on all contexts. *)
Definition demo_callbacks : DemoState :=
  demo_add_multi 40 (demo_add_world 30 (demo_add_world 20 (demo_add_world 10 demo_started))).

Example demo_callbacks_events :
  event_at demo_callbacks (Some demo_standalone_index)
    = Some [(1%N, 10%nat); (2%N, 20%nat); (3%N, 30%nat)] /\
  event_at demo_callbacks None = Some [(4%N, 40%nat)].
Proof. split; reflexivity. Qed.

(** Removing the second callback leaves the first and the third, in order,
    and the multi-context callback. *)
Example demo_remove_second :
  event_at (RemoveImGuiDelegate (demo_default_handle 2) demo_callbacks)
      (Some demo_standalone_index)
    = Some [(1%N, 10%nat); (3%N, 30%nat)] /\
  event_at (RemoveImGuiDelegate (demo_default_handle 2) demo_callbacks) None
    = Some [(4%N, 40%nat)].
Proof. split; reflexivity. Qed.

(** A multi-context handle with the key of a per-context entry removes
    nothing from the context. *)
Example demo_remove_multi_only :
  event_at (RemoveImGuiDelegate {| Handle := 4%N; Category := MultiContext; Index := 0 |}
              demo_callbacks) None = Some [] /\
  event_at (RemoveImGuiDelegate {| Handle := 2%N; Category := MultiContext; Index := 0 |}
              demo_callbacks) (Some demo_standalone_index)
    = Some [(1%N, 10%nat); (2%N, 20%nat); (3%N, 30%nat)].
Proof. split; reflexivity. Qed.

Lemma demo_first_added_wf_keys : wf_keys (demo_add_world 10 demo_started).
Proof.
  apply (wf_keys_step false demo_standalone_index demo_editor_index demo_world_index
           demo_started); [exact demo_started_wf_keys |].
  apply (step_add_world _ _ _ _ demo_engine 10%nat demo_started (demo_default_handle 1)).
  reflexivity.
Qed.

Lemma RemoveImGuiDelegate_removes_exactly_its_entry_witness :
  (exists ev,
     event_at (demo_add_world 20 (demo_add_world 10 demo_started))
       (handle_loc (demo_default_handle 2))
     = Some (Event_Add ev (Handle (demo_default_handle 2)) 20%nat)) /\
  (forall loc, loc <> handle_loc (demo_default_handle 2) ->
     event_at (RemoveImGuiDelegate (demo_default_handle 2) demo_callbacks) loc
     = event_at demo_callbacks loc) /\
  (Category (demo_default_handle 2) = MultiContext ->
   forall i, event_at (RemoveImGuiDelegate (demo_default_handle 2) demo_callbacks) (Some i)
             = event_at demo_callbacks (Some i)) /\
  (forall ev, event_at demo_callbacks (handle_loc (demo_default_handle 2)) = Some ev ->
     Handle (demo_default_handle 2) ∈ ev.*1 ->
     exists l1 l2,
       ev = l1 ++ (Handle (demo_default_handle 2), 20%nat) :: l2 /\
       (Handle (demo_default_handle 2) ∉ (l1 ++ l2).*1) /\
       event_at (RemoveImGuiDelegate (demo_default_handle 2) demo_callbacks)
         (handle_loc (demo_default_handle 2)) = Some (l1 ++ l2)).
Proof.
  apply (RemoveImGuiDelegate_removes_exactly_its_entry
           false demo_standalone_index demo_editor_index demo_world_index
           (demo_add_world 10 demo_started)
           (demo_add_world 20 (demo_add_world 10 demo_started))
           demo_callbacks 20%nat (demo_default_handle 2)).
  - exact demo_first_added_wf_keys.
  - right. left. exists demo_engine. reflexivity.
  - eapply rtc_l.
    + apply (step_add_world _ _ _ _ demo_engine 30%nat _ (demo_default_handle 3)). reflexivity.
    + apply rtc_once.
      apply (step_add_multi _ _ _ _ 40%nat _
               {| Handle := 4%N; Category := MultiContext; Index := 0 |}).
      reflexivity.
Defined.

(** The standalone context is torn down and created again by a later add:
    the handle of the first life removes nothing from the second. *)
Definition demo_reused : DemoState :=
  demo_add_world 20 (release_context demo_standalone_index (demo_add_world 10 demo_started)).

Example demo_reused_events :
  event_at (release_context demo_standalone_index (demo_add_world 10 demo_started))
    (Some demo_standalone_index) = None /\
  event_at demo_reused (Some demo_standalone_index) = Some [(2%N, 20%nat)].
Proof. split; reflexivity. Qed.

Lemma RemoveImGuiDelegate_stale_default_handle_witness :
  RemoveImGuiDelegate (demo_default_handle 1)
    (release_context demo_standalone_index (demo_add_world 10 demo_started))
  = release_context demo_standalone_index (demo_add_world 10 demo_started) /\
  RemoveImGuiDelegate (demo_default_handle 1) demo_reused = demo_reused.
Proof.
  split.
  - apply (proj1 (RemoveImGuiDelegate_stale_default_handle
                    false demo_standalone_index demo_editor_index demo_world_index)).
    + reflexivity.
    + intros m [= <-]. reflexivity.
  - apply (proj2 (RemoveImGuiDelegate_stale_default_handle
                    false demo_standalone_index demo_editor_index demo_world_index)
             demo_started (demo_add_world 10 demo_started) (demo_add_world 10 demo_started)
             demo_reused 10%nat (demo_default_handle 1)).
    + exact demo_started_wf_keys.
    + right. exists demo_engine. reflexivity.
    + apply rtc_refl.
    + apply rtc_once.
      apply (step_add_world _ _ _ _ demo_engine 20%nat _ (demo_default_handle 2)). reflexivity.
Defined.

(** ** Flags *)

Example demo_flags :
  IsInputMode demo_started = false /\
  IsInputMode (ToggleInputMode demo_started) = true /\
  IsInputMode (ToggleInputMode (ToggleInputMode demo_started)) = false /\
  IsShowingDemo (SetShowDemo true demo_started) = true.
Proof. repeat split. Qed.

(** ** Life cycle, round trips and interference at work *)

Lemma demo_callbacks_run_from_first :
  rtc demo_step (demo_add_world 10 demo_started) demo_callbacks.
Proof.
  eapply rtc_l.
  { apply (step_add_world _ _ _ _ demo_engine 20%nat _ (demo_default_handle 2)). reflexivity. }
  eapply rtc_l.
  { apply (step_add_world _ _ _ _ demo_engine 30%nat _ (demo_default_handle 3)). reflexivity. }
  apply rtc_once.
  apply (step_add_multi _ _ _ _ 40%nat _ {| Handle := 4%N; Category := MultiContext; Index := 0 |}).
  reflexivity.
Qed.

Lemma demo_callbacks_run : rtc demo_step demo_started demo_callbacks.
Proof.
  eapply rtc_l; [| exact demo_callbacks_run_from_first].
  apply (step_add_world _ _ _ _ demo_engine 10%nat _ (demo_default_handle 1)). reflexivity.
Qed.

Lemma demo_registry_wf : wf_textures (TextureManager
  {| ContextManager := {| Contexts := (∅ : gmap Z (@FImGuiContextProxy nat));
                          OnDrawMultiContext := [] |};
     TextureManager :=
       {| slots := [Some ("A", 1%nat); None; Some ("B", 2%nat)]; free_list := [1%Z] |} |}).
Proof.
  split; simpl; [apply NoDup_singleton |].
  intros i Hi. apply list_elem_of_singleton in Hi as ->. split; [lia | reflexivity].
Qed.

Lemma startup_shutdown_round_trip_witness :
  exists st2 : DemoState, ShutdownModule false demo_started = Ok st2 /\ st2 = demo_unloaded.
Proof.
  destruct (startup_shutdown_round_trip false demo_unloaded demo_started eq_refl)
    as (st2 & Hs & _ & _ & _ & _ & _ & _ & Heq & _).
  exists st2. split; [exact Hs | exact (Heq eq_refl)].
Defined.

Lemma life_cycle_checks_witness :
  StartupModule false demo_started = Fail CheckFailed /\
  ShutdownModule false demo_unloaded = Fail CheckFailed.
Proof.
  split.
  - exact (proj1 (proj2 (life_cycle_checks false)) demo_unloaded demo_started eq_refl).
  - exact (proj1 (proj2 (proj2 (proj2 (life_cycle_checks false)))) demo_started demo_unloaded
             eq_refl).
Defined.

Lemma after_shutdown_witness :
  HasValidEntry (demo_handle "A" 0) demo_unloaded = false /\
  ReleaseTexture (demo_handle "A" 0) demo_unloaded = Ok demo_unloaded /\
  AddMultiContextImGuiDelegate 10%nat demo_unloaded = Fail CheckFailed /\
  FindTextureHandle "None" "A" demo_unloaded = Fail NullDereference.
Proof.
  destruct (after_shutdown "None" false demo_standalone_index demo_editor_index demo_world_index
              demo_started demo_unloaded eq_refl) as (Hv & Hr & _ & _ & Hm & Hf & _).
  split; [apply Hv |]. split; [apply Hr |]. split; [apply Hm | apply Hf].
Defined.

Lemma add_remove_multi_context_round_trip_witness :
  RemoveImGuiDelegate {| Handle := 1%N; Category := MultiContext; Index := 0 |}
    (demo_add_multi 40 demo_started)
  = key_consumed demo_started.
Proof.
  exact (add_remove_multi_context_round_trip 40%nat demo_started
           (demo_add_multi 40 demo_started)
           {| Handle := 1%N; Category := MultiContext; Index := 0 |}
           demo_started_wf_keys eq_refl).
Defined.

Lemma add_remove_default_round_trip_witness :
  event_at (RemoveImGuiDelegate (demo_default_handle 1) (demo_add_world 10 demo_started))
    (Some demo_standalone_index) = Some [] /\
  RemoveImGuiDelegate (demo_default_handle 2)
    (demo_add_world 20 (demo_add_world 10 demo_started))
  = key_consumed (demo_add_world 10 demo_started).
Proof.
  split.
  - destruct (add_remove_default_round_trip false demo_standalone_index demo_editor_index
                demo_world_index 10%nat demo_started (demo_add_world 10 demo_started)
                (demo_default_handle 1) NewModuleManager demo_started_wf_keys eq_refl
                (or_intror (ex_intro _ demo_engine eq_refl))) as (_ & _ & Hnew).
    exact (proj1 (Hnew eq_refl)).
  - eapply (proj1 (proj2 (add_remove_default_round_trip false demo_standalone_index
                            demo_editor_index demo_world_index 20%nat
                            (demo_add_world 10 demo_started)
                            (demo_add_world 20 (demo_add_world 10 demo_started))
                            (demo_default_handle 2) _ demo_first_added_wf_keys eq_refl
                            (or_intror (ex_intro _ demo_engine eq_refl))))).
    reflexivity.
Defined.

Lemma delegate_calls_keep_textures_witness :
  HasValidEntry (demo_handle "B" 2) (demo_add_multi 40 demo_registry)
  = HasValidEntry (demo_handle "B" 2) demo_registry /\
  FindTextureHandle "None" "B" (demo_add_multi 40 demo_registry)
  = FindTextureHandle "None" "B" demo_registry.
Proof.
  apply (proj2 (delegate_calls_keep_textures "None" false demo_standalone_index
                  demo_editor_index demo_world_index)
           40%nat demo_registry (demo_add_multi 40 demo_registry)
           {| Handle := 1%N; Category := MultiContext; Index := 0 |}).
  right. right. reflexivity.
Defined.

Lemma texture_calls_keep_draw_events_witness :
  NextDelegateID (demo_with_textures {| slots := [Some ("A", 1%nat)]; free_list := [] |})
  = NextDelegateID demo_started /\
  IsInputMode (demo_with_textures {| slots := [Some ("A", 1%nat)]; free_list := [] |})
  = IsInputMode demo_started.
Proof.
  destruct (texture_calls_keep_draw_events demo_started
              (demo_with_textures {| slots := [Some ("A", 1%nat)]; free_list := [] |}))
    as (_ & Hn & Hi & _).
  - left. exists "A", 1%nat, true, (demo_handle "A" 0). reflexivity.
  - split; [exact Hn | exact Hi].
Defined.

Lemma RegisterTexture_round_trip_witness :
  Name (demo_handle "C" 1) = "C" /\
  HasValidEntry (demo_handle "C" 1)
    (demo_with_textures
       {| slots := [Some ("A", 1%nat); Some ("C", 3%nat); Some ("B", 2%nat)];
          free_list := [] |}) = true.
Proof.
  destruct (RegisterTexture_round_trip "None" "C" 3%nat true demo_registry
              (demo_with_textures
                 {| slots := [Some ("A", 1%nat); Some ("C", 3%nat); Some ("B", 2%nat)];
                    free_list := [] |})
              _ (demo_handle "C" 1) eq_refl demo_registry_wf) as (Hn & Hv & _);
    [reflexivity |].
  split; [exact Hn | exact Hv].
Defined.

Lemma ReleaseTexture_frame_witness :
  HasValidEntry (demo_handle "B" 2)
    (demo_with_textures
       {| slots := [Some ("A", 1%nat); None; None]; free_list := [2%Z; 1%Z] |}) = false /\
  HasValidEntry (demo_handle "A" 0)
    (demo_with_textures
       {| slots := [Some ("A", 1%nat); None; None]; free_list := [2%Z; 1%Z] |})
  = HasValidEntry (demo_handle "A" 0) demo_registry.
Proof.
  destruct (ReleaseTexture_frame (demo_handle "B" 2) demo_registry
              (demo_with_textures
                 {| slots := [Some ("A", 1%nat); None; None]; free_list := [2%Z; 1%Z] |}))
    as [Hsame Hother]; [reflexivity | reflexivity |].
  split; [apply Hsame; reflexivity | apply Hother; intros Heq; discriminate Heq].
Defined.

Lemma never_issued_handle_removes_nothing_witness :
  RemoveImGuiDelegate (demo_default_handle 9) demo_callbacks = demo_callbacks.
Proof.
  apply (never_issued_handle_removes_nothing false demo_standalone_index demo_editor_index
           demo_world_index demo_unloaded demo_started demo_callbacks eq_refl
           demo_callbacks_run).
  apply N.leb_le. reflexivity.
Defined.

Lemma fresh_module_is_empty_witness :
  HasValidEntry (demo_handle "A" 0) demo_started = false /\
  FindTextureHandle "None" "A" demo_started = Ok (NullTextureHandle "None").
Proof.
  destruct (fresh_module_is_empty "None" false demo_unloaded demo_started eq_refl)
    as (Hv & Hf & _).
  split; [apply Hv | apply Hf].
Defined.

(** A console variable set to 5 from the console reads as [true]; two toggles
    leave it at 1. *)
Example demo_flags_normalise :
  IsInputMode (set_InputEnabled demo_started 5) = true /\
  InputEnabled (ToggleInputMode (ToggleInputMode (set_InputEnabled demo_started 5))) = 1%Z /\
  IsInputMode (set_InputEnabled demo_started (-3)) = false.
Proof. repeat split. Qed.

(** Removal in either order. *)
Example demo_remove_comm :
  event_at (RemoveImGuiDelegate (demo_default_handle 1)
              (RemoveImGuiDelegate (demo_default_handle 3) demo_callbacks))
    (Some demo_standalone_index) = Some [(2%N, 20%nat)] /\
  event_at (RemoveImGuiDelegate (demo_default_handle 3)
              (RemoveImGuiDelegate (demo_default_handle 1) demo_callbacks))
    (Some demo_standalone_index) = Some [(2%N, 20%nat)].
Proof. split; reflexivity. Qed.

(** An editor build with no world in the viewport falls back to the dedicated
    server's world, and fails its check when there is none either. *)
Example demo_editor_world_fallback :
  (exists st',
     AddWorldImGuiDelegate true demo_standalone_index demo_world_index
       {| GEngine := true; GameViewportWorldContext := None;
          DedicatedServerWorldContext := Some {| World := Some 3%nat |} |} 10%nat demo_started
     = Ok ({| Handle := 1%N; Category := Default; Index := demo_world_index 3 |}, st')) /\
  AddWorldImGuiDelegate true demo_standalone_index demo_world_index demo_engine 10%nat
    demo_started = Fail CheckFailed.
Proof. split; [eexists |]; reflexivity. Qed.

(** In an editor build a viewport context without a world is not replaced by
    the dedicated server's: the null world is dereferenced. *)
Example demo_editor_null_world :
  AddWorldImGuiDelegate true demo_standalone_index demo_world_index
    {| GEngine := true; GameViewportWorldContext := Some {| World := None |};
       DedicatedServerWorldContext := Some {| World := Some 3%nat |} |} 10%nat demo_started
  = Fail NullDereference.
Proof. reflexivity. Qed.
